(** * Botrix: credential pool, code extraction, mailbox poller, account
    pipeline, challenge client and worker daemon.

    Shallow embedding of [src/workers/email_handler.py],
    [src/workers/account_creator.py], [src/workers/kasada_solver.py] and
    [src/workers/worker_daemon.py].  Strings are [string] / [list ascii];
    Python sets are duplicate-free lists grown by [set_add]; Python ints are
    [Z]; wall-clock time is an integer tick count. *)

From Stdlib Require Import String Ascii List Bool ZArith Lia.
Import ListNotations.
Open Scope string_scope.
Open Scope list_scope.

(* ------------------------------------------------------------------ *)
(** ** Character and string helpers (Python [str] methods on ASCII) *)

Module Str.

(** Characters for which Python's [str.isspace] holds, restricted to ASCII. *)
Definition is_space (c : ascii) : bool :=
  let n := nat_of_ascii c in
  (n =? 32)%nat || ((9 <=? n)%nat && (n <=? 13)%nat)
  || ((28 <=? n)%nat && (n <=? 31)%nat).

Fixpoint lstrip (l : list ascii) : list ascii :=
  match l with
  | c :: r => if is_space c then lstrip r else l
  | [] => []
  end.

(** [s.strip()] *)
Definition strip_l (l : list ascii) : list ascii :=
  rev (lstrip (rev (lstrip l))).

Definition strip (s : string) : string :=
  string_of_list_ascii (strip_l (list_ascii_of_string s)).

Definition ascii_eqb (a b : ascii) : bool := Ascii.eqb a b.

(** [c in s] for a one-character needle. *)
Definition has_char (c : ascii) (s : string) : bool :=
  existsb (ascii_eqb c) (list_ascii_of_string s).

(** [s.split(':', 1)] when [':' in s]: the part before the first colon and
    the rest. *)
Fixpoint split_colon_l (l : list ascii) : list ascii * list ascii :=
  match l with
  | [] => ([], [])
  | c :: r =>
      if ascii_eqb c ":" then ([], r)
      else let '(a, b) := split_colon_l r in (c :: a, b)
  end.

Definition split_colon (s : string) : string * string :=
  let '(a, b) := split_colon_l (list_ascii_of_string s) in
  (string_of_list_ascii a, string_of_list_ascii b).

(** [s.startswith('#')] *)
Definition starts_hash (s : string) : bool :=
  match s with
  | String c _ => ascii_eqb c "#"
  | EmptyString => false
  end.

End Str.

(* ------------------------------------------------------------------ *)
(** ** [HotmailPool] *)

Module Pool.

Definition email := string.
Definition secret := string.

(** Python [set.add] on a set kept as a duplicate-free list. *)
Definition set_add (x : string) (s : list string) : list string :=
  if existsb (String.eqb x) s then s else s ++ [x].

Definition mem (x : string) (s : list string) : bool :=
  existsb (String.eqb x) s.

Record pool := mkPool {
  available_emails : list (email * secret);
  used_emails : list email;
  failed_emails : list email
}.

Definition empty_pool : pool := mkPool [] [] [].

(** Result of parsing one line of the pool file inside [_load_emails]. *)
Inductive line_parse :=
  | LSkip                       (* blank line or comment *)
  | LMalformed                  (* no ':' : MalformedEmailFormatError *)
  | LBadEmail                   (* fails the '@' / '.' check: skipped *)
  | LEntry (e : email) (p : secret).

Definition parse_line (raw : string) : line_parse :=
  let line := Str.strip raw in
  if (line =? "") || Str.starts_hash line then LSkip
  else if negb (Str.has_char ":" line) then LMalformed
  else
    let '(a, b) := Str.split_colon line in
    let e := Str.strip a in
    let p := Str.strip b in
    if negb (Str.has_char "@" e) || negb (Str.has_char "." e) then LBadEmail
    else LEntry e p.

Inductive load_error := MalformedEmailFormat.

(** The loop of [_load_emails] over the lines of the file.  On a malformed
    line the exception leaves the entries appended so far in place. *)
Fixpoint load_lines (lines : list string) (p : pool)
  : pool * option load_error :=
  match lines with
  | [] => (p, None)
  | raw :: rest =>
      match parse_line raw with
      | LSkip | LBadEmail => load_lines rest p
      | LMalformed => (p, Some MalformedEmailFormat)
      | LEntry e pw =>
          if mem e (used_emails p) || mem e (failed_emails p)
          then load_lines rest p
          else load_lines rest
                 (mkPool (available_emails p ++ [(e, pw)])
                         (used_emails p) (failed_emails p))
      end
  end.

(** [_load_emails]: a missing file ([None]) is created empty and nothing is
    loaded. *)
Definition load_emails (file : option (list string)) (p : pool)
  : pool * option load_error :=
  match file with
  | None => (p, None)
  | Some lines => load_lines lines p
  end.

(** [HotmailPool(pool_file)]: the constructor succeeds unless loading raised. *)
Definition init (file : option (list string)) : option pool :=
  match load_emails file empty_pool with
  | (p, None) => Some p
  | (_, Some _) => None
  end.

Inductive pool_error := EmailPoolEmpty.

(** [get_next_email]: the head of [available_emails], no mutation. *)
Definition get_next_email (p : pool) : (email * secret) + pool_error :=
  match available_emails p with
  | x :: _ => inl x
  | [] => inr EmailPoolEmpty
  end.

Definition remove_email (e : email) (l : list (email * secret))
  : list (email * secret) :=
  filter (fun ep => negb (String.eqb (fst ep) e)) l.

(** [mark_as_used] *)
Definition mark_as_used (e : email) (p : pool) : pool :=
  mkPool (remove_email e (available_emails p))
         (set_add e (used_emails p)) (failed_emails p).

(** [mark_as_failed] *)
Definition mark_as_failed (e : email) (p : pool) : pool :=
  mkPool (remove_email e (available_emails p))
         (used_emails p) (set_add e (failed_emails p)).

(** [reload]: clear [available_emails], then [_load_emails]. *)
Definition reload (file : option (list string)) (p : pool)
  : pool * option load_error :=
  load_emails file (mkPool [] (used_emails p) (failed_emails p)).

Record stats := mkStats {
  st_available : nat; st_used : nat; st_failed : nat; st_total : nat
}.

(** [get_stats] *)
Definition get_stats (p : pool) : stats :=
  mkStats (length (available_emails p)) (length (used_emails p))
          (length (failed_emails p))
          (length (available_emails p) + length (used_emails p)
           + length (failed_emails p)).

(** Calls a client can make on a constructed pool.  [Reload] carries the
    file contents at the time of the call.  A raised exception leaves the
    pool object as the method left it. *)
Inductive op :=
  | MarkUsed (e : email)
  | MarkFailed (e : email)
  | GetNext
  | Reload (file : option (list string)).

Definition step (p : pool) (o : op) : pool :=
  match o with
  | MarkUsed e => mark_as_used e p
  | MarkFailed e => mark_as_failed e p
  | GetNext => p
  | Reload f => fst (reload f p)
  end.

Definition run (p : pool) (ops : list op) : pool := fold_left step ops p.

Definition ids (l : list (email * secret)) : list email := map fst l.

(** Available identifiers are never terminal, and the two terminal sets
    hold no duplicates. *)
Definition Inv (p : pool) : Prop :=
  (forall e, In e (ids (available_emails p)) ->
     ~ In e (used_emails p) /\ ~ In e (failed_emails p))
  /\ NoDup (used_emails p) /\ NoDup (failed_emails p).

End Pool.

(* ------------------------------------------------------------------ *)
(** ** [EmailVerifier._extract_code_from_text] and [CODE_PATTERNS] *)

Module Extract.

(** Texts are modelled as strings of ASCII characters.  On an ASCII
    character Python's Unicode classes [\d], [\s] and [\w] coincide with
    the ASCII classes below; on other characters they do not ([\d] also
    matches, e.g., Arabic-Indic digits), which this model does not cover. *)
Definition is_digit (c : ascii) : bool :=
  let n := nat_of_ascii c in ((48 <=? n)%nat && (n <=? 57)%nat).

Definition is_alpha (c : ascii) : bool :=
  let n := nat_of_ascii c in
  ((65 <=? n)%nat && (n <=? 90)%nat) || ((97 <=? n)%nat && (n <=? 122)%nat).

(** Regex word characters [\w] (ASCII). *)
Definition is_word (c : ascii) : bool :=
  is_digit c || is_alpha c || Ascii.eqb c "_".

Definition is_word_opt (c : option ascii) : bool :=
  match c with Some c => is_word c | None => false end.

(** [\b] between the previous character and the next one. *)
Definition boundary (prev next : option ascii) : bool :=
  xorb (is_word_opt prev) (is_word_opt next).

(** ASCII [lower()], used for [re.IGNORECASE]. *)
Definition lower (c : ascii) : ascii :=
  let n := nat_of_ascii c in
  if ((65 <=? n)%nat && (n <=? 90)%nat) then ascii_of_nat (n + 32) else c.

(** At most [k] leading digits. *)
Fixpoint take_digits (k : nat) (l : list ascii) : list ascii :=
  match k, l with
  | S k', c :: r => if is_digit c then c :: take_digits k' r else []
  | _, _ => []
  end.

(** Greedy [\d{4,8}] followed by [\b]: the backtracking tries the longest
    digit run first, then shorter ones down to 4 digits. *)
Fixpoint try_lengths (fuel : nat) (d : list ascii) (s : list ascii)
  : option (list ascii) :=
  match fuel with
  | O => None
  | S f =>
      let k := length d in
      if (k <? 4)%nat then None
      else
        let last := last (map Some d) None in
        if boundary last (hd_error (skipn k s)) then Some d
        else try_lengths f (removelast d) s
  end.

(** [\b(\d{4,8})\b] anchored at the current position, [prev] being the
    character before it. *)
Definition match_generic (prev : option ascii) (s : list ascii)
  : option (list ascii) :=
  if boundary prev (hd_error s) then try_lengths 9 (take_digits 8 s) s
  else None.

Definition is_sep (c : ascii) : bool := Ascii.eqb c ":" || Str.is_space c.

Fixpoint drop_while (f : ascii -> bool) (l : list ascii) : list ascii :=
  match l with
  | c :: r => if f c then drop_while f r else l
  | [] => []
  end.

Fixpoint match_prefix_ci (lit s : list ascii) : option (list ascii) :=
  match lit, s with
  | [], _ => Some s
  | a :: lr, c :: sr =>
      if Ascii.eqb a (lower c) then match_prefix_ci lr sr else None
  | _ :: _, [] => None
  end.

(** [<label>[:\s]+(\d{4,8})] anchored at the current position, case
    insensitive.  [[:\s]] and [\d] are disjoint, so the greedy separator run
    is the only one after which a digit can follow, and the greedy digit run
    (capped at 8) needs no trailing check. *)
Definition match_label (lit : string) (s : list ascii) : option (list ascii) :=
  match match_prefix_ci (list_ascii_of_string lit) s with
  | None => None
  | Some r =>
      match r with
      | c :: _ =>
          if is_sep c then
            let d := take_digits 8 (drop_while is_sep r) in
            if (4 <=? length d)%nat then Some d else None
          else None
      | [] => None
      end
  end.

Inductive pattern :=
  | PGeneric              (* r'\b(\d{4,8})\b' *)
  | PLabel (lit : string). (* r'<lit>[:\s]+(\d{4,8})' *)

Definition match_at (pat : pattern) (prev : option ascii) (s : list ascii)
  : option (list ascii) :=
  match pat with
  | PGeneric => match_generic prev s
  | PLabel lit => match_label lit s
  end.

(** [re.search]: the leftmost position where the pattern matches. *)
Fixpoint search_from (pat : pattern) (prev : option ascii) (s : list ascii)
  : option (list ascii) :=
  match match_at pat prev s with
  | Some g => Some g
  | None =>
      match s with
      | [] => None
      | c :: r => search_from pat (Some c) r
      end
  end.

Definition search (pat : pattern) (text : string) : option string :=
  option_map string_of_list_ascii
    (search_from pat None (list_ascii_of_string text)).

(** [EmailVerifier.CODE_PATTERNS], in source order. *)
Definition CODE_PATTERNS : list pattern :=
  [ PGeneric; PLabel "code"; PLabel "verification"; PLabel "confirm";
    PLabel "your code is" ].

Fixpoint first_match (pats : list pattern) (text : string) : option string :=
  match pats with
  | [] => None
  | p :: ps =>
      match search p text with
      | Some c => Some c
      | None => first_match ps text
      end
  end.

(** [_extract_code_from_text] *)
Definition extract_code_from_text (text : string) : option string :=
  if text =? "" then None else first_match CODE_PATTERNS text.

(** The part of [_search_verification_email] that inspects the fetched
    messages: most recent first, subject before body. *)
Fixpoint code_from_messages (msgs : list (string * string)) : option string :=
  match msgs with
  | [] => None
  | (subject, body) :: rest =>
      match extract_code_from_text subject with
      | Some c => Some c
      | None =>
          match extract_code_from_text body with
          | Some c => Some c
          | None => code_from_messages rest
          end
      end
  end.

Definition search_messages (msgs_oldest_first : list (string * string))
  : option string :=
  code_from_messages (rev msgs_oldest_first).

End Extract.

(* ------------------------------------------------------------------ *)
(** ** [EmailVerifier.get_verification_code] *)

Module Poller.

(** One iteration's poll, as seen by the loop: [poll_time] is the time that
    passes between the elapsed-time check and the computation of
    [wait_time] that is not the requested [asyncio.sleep] (the blocking
    [_search_verification_email] call run in the executor, plus scheduling
    latency); [poll_code] is what the search returned. *)
Record poll := mkPoll { poll_time : Z; poll_code : option string }.

Inductive outcome :=
  | GotCode (code : string) (t : Z)
  | NoEmailReceived (t : Z) (attempts : nat)  (* raise NoEmailReceivedError *)
  | IMAPLogin                                 (* raise IMAPLoginError *)
  | Polling (t : Z).        (* the given polls ran out before the loop ended *)

(** The [while True] loop; [now] is [time.time() - start_time].  The second
    component lists the [asyncio.sleep] durations as (elapsed at the check,
    wait_time) pairs. *)
Fixpoint poll_loop (timeout poll_interval now : Z) (attempts : nat)
    (polls : list poll) : outcome * list (Z * Z) :=
  let attempts := S attempts in
  if (now >? timeout)%Z then (NoEmailReceived now attempts, [])
  else
    match polls with
    | [] => (Polling now, [])
    | pl :: rest =>
        match poll_code pl with
        | Some c => (GotCode c (now + poll_time pl)%Z, [])
        | None =>
            let remaining := (timeout - now)%Z in
            let wait_time := Z.min poll_interval remaining in
            if (wait_time >? 0)%Z then
              let '(o, s) := poll_loop timeout poll_interval
                               (now + poll_time pl + wait_time)%Z attempts rest in
              (o, (now, wait_time) :: s)
            else
              let '(o, s) := poll_loop timeout poll_interval
                               (now + poll_time pl)%Z attempts rest in
              (o, s)
        end
    end.

(** [get_verification_code(timeout, poll_interval)]; [connect_ok] says
    whether the connection exists or [connect()] succeeds. *)
Definition get_verification_code (connect_ok : bool) (timeout poll_interval : Z)
    (polls : list poll) : outcome * list (Z * Z) :=
  if connect_ok then poll_loop timeout poll_interval 0 0 polls
  else (IMAPLogin, []).

Definition no_code (polls : list poll) : Prop :=
  Forall (fun pl => poll_code pl = None) polls.

End Poller.

(* ------------------------------------------------------------------ *)
(** ** [KickAccountCreator.create_account] *)

Module Pipeline.
Import Pool.

(** Exception classes a collaborator can raise, as the [except] clauses of
    [create_account] see them. *)
Inductive cexc :=
  | CEmailVerification   (* EmailVerificationError: IMAPLoginError, NoEmailReceivedError, ... *)
  | CKasada              (* KasadaSolverError: InvalidAPIKeyError, RateLimitError, TimeoutError *)
  | CAccountCreation     (* AccountCreationError raised by _make_request *)
  | COther               (* any other Exception: asyncio.TimeoutError, aiohttp.ClientError, ValueError *)
  | CBase.               (* a BaseException that is not an Exception: asyncio.CancelledError *)

(** Exceptions raised inside the [try] block of [create_account]. *)
Inductive exc :=
  | Collab (c : cexc) (msg : string)
  | PoolEmpty                           (* EmailPoolEmptyError *)
  | VerificationFailed (msg : string)   (* VerificationFailedError *)
  | RegistrationFailed (msg : string).  (* RegistrationFailedError *)

(** What a collaborator call does: returns a value or raises. *)
Inductive stage (A : Type) :=
  | SOk (a : A)
  | SRaise (c : cexc) (msg : string).
Arguments SOk {A} a.
Arguments SRaise {A} c msg.

(** Response body of the register call; [None] is Python [None]; a dict is
    truthy when it is not empty. *)
Definition acct := list (string * string).

(** The collaborators' behaviour during one run.  An [asyncio.sleep]
    between two calls is folded into the call that follows it. *)
Record env := mkEnv {
  gen_username : string;              (* generate_random_username() *)
  gen_password : string;              (* generate_random_password() *)
  gen_birthdate : string;             (* generate_random_birthdate() *)
  e_solve : stage unit;               (* kasada_solver.solve(...) *)
  e_send : stage bool;                (* _send_verification_email(...) *)
  e_code : stage string;              (* EmailVerifier(...) + get_verification_code *)
  e_verify : stage (option string);   (* _verify_email_code(...) *)
  e_register : stage (option acct)    (* _register_account(...) *)
}.

(** The returned dict; [None] in a field means the key is absent. *)
Record result := mkResult {
  r_success : bool;
  r_error : option string;
  r_message : option string;
  r_email : option email;
  r_username : option string;
  r_password : option string;
  r_birthdate : option string;
  r_verification_code : option string;
  r_account_data : option acct
}.

Inductive outcome :=
  | Returned (p : pool) (r : result)
  | Raised (p : pool) (c : cexc) (msg : string).  (* escapes create_account *)

(** The body of the [try] block: either the success dict together with the
    pool, or the exception raised, the pool at that point, and the value of
    the local [email]. *)
Definition M (A : Type) : Type := A + (pool * option email * exc).

Definition ret {A} (a : A) : M A := inl a.
Definition bind {A B} (m : M A) (k : A -> M B) : M B :=
  match m with inl a => k a | inr e => inr e end.
Notation "x <- m ;; k" := (bind m (fun x => k))
  (at level 61, m at next level, right associativity).

Definition throw {A} (p : pool) (em : option email) (x : exc) : M A :=
  inr (p, em, x).

Definition call {A} (p : pool) (em : option email) (s : stage A) : M A :=
  match s with
  | SOk a => ret a
  | SRaise c msg => throw p em (Collab c msg)
  end.

(** Python [x or y] on strings. *)
Definition py_or (x : option string) (y : string) : string :=
  match x with Some s => if s =? "" then y else s | None => y end.

Definition truthy_str (x : option string) : bool :=
  match x with Some s => negb (s =? "") | None => false end.

Definition truthy_acct (x : option acct) : bool :=
  match x with Some (_ :: _) => true | _ => false end.

Definition try_block (p : pool) (E : env)
    (username password birthdate : option string) : M (pool * result) :=
  let username := py_or username (gen_username E) in
  let password := py_or password (gen_password E) in
  let birthdate := py_or birthdate (gen_birthdate E) in
  match get_next_email p with
  | inr EmailPoolEmpty => throw p None PoolEmpty
  | inl (em, _) =>
      let e := Some em in
      _ <- call p e (e_solve E) ;;
      sent <- call p e (e_send E) ;;
      if negb sent
      then throw p e (VerificationFailed "Failed to send verification email")
      else
      code <- call p e (e_code E) ;;
      token <- call p e (e_verify E) ;;
      if negb (truthy_str token)
      then throw p e (VerificationFailed "Failed to verify email code")
      else
      data <- call p e (e_register E) ;;
      if negb (truthy_acct data)
      then throw p e (RegistrationFailed "Failed to register account")
      else
        let p' := mark_as_used em p in
        ret (p', mkResult true None None (Some em) (Some username)
                   (Some password) (Some birthdate) (Some code) data)
  end.

Definition exc_message (x : exc) : string :=
  match x with
  | Collab _ m | VerificationFailed m | RegistrationFailed m => m
  | PoolEmpty => "Email pool is empty - no available emails"
  end.

(** [if email: self.email_pool.mark_as_...(email)] *)
Definition if_email (f : email -> pool -> pool) (em : option email) (p : pool)
  : pool :=
  if truthy_str em then match em with Some e => f e p | None => p end else p.

Definition failure (p : pool) (err : string) (x : exc) (em : option email)
  : outcome :=
  Returned p (mkResult false (Some err) (Some (exc_message x)) em
                None None None None None).

(** The [except] clauses, in source order. *)
Definition handle (p : pool) (em : option email) (x : exc) : outcome :=
  match x with
  | PoolEmpty | Collab CEmailVerification _ =>
      failure (if_email mark_as_failed em p) "Email verification failed" x em
  | Collab CKasada _ =>
      failure (if_email mark_as_failed em p) "Kasada challenge failed" x em
  | VerificationFailed _ =>
      failure (if_email mark_as_failed em p) "Verification failed" x em
  | RegistrationFailed _ =>
      failure (if_email mark_as_used em p) "Registration failed" x em
  | Collab CAccountCreation _ | Collab COther _ =>
      failure (if_email mark_as_failed em p) "Unexpected error" x em
  | Collab CBase m => Raised p CBase m
  end.

Definition create_account (p : pool) (E : env)
    (username password birthdate : option string) : outcome :=
  match try_block p E username password birthdate with
  | inl (p', r) => Returned p' r
  | inr (p', em, x) => handle p' em x
  end.

Definition final_pool (o : outcome) : pool :=
  match o with Returned p _ => p | Raised p _ _ => p end.

Inductive stage_id := StChallenge | StSendCode | StAwaitCode | StVerifyCode | StRegister.

(** The first stage at which a run with these collaborators fails after a
    credential was acquired, with the collaborator's exception class, or
    [None] for a failure [create_account] raises itself
    ([VerificationFailedError] / [RegistrationFailedError]). *)
Definition failure_at (E : env) : option (stage_id * option cexc) :=
  match e_solve E with
  | SRaise c _ => Some (StChallenge, Some c)
  | SOk _ =>
  match e_send E with
  | SRaise c _ => Some (StSendCode, Some c)
  | SOk false => Some (StSendCode, None)
  | SOk true =>
  match e_code E with
  | SRaise c _ => Some (StAwaitCode, Some c)
  | SOk _ =>
  match e_verify E with
  | SRaise c _ => Some (StVerifyCode, Some c)
  | SOk tok =>
  if negb (truthy_str tok) then Some (StVerifyCode, None) else
  match e_register E with
  | SRaise c _ => Some (StRegister, Some c)
  | SOk d => if truthy_acct d then None else Some (StRegister, None)
  end end end end end.

(** The exception a collaborator call raised, if any. *)
Definition stage_exc {A} (s : stage A) : option (cexc * string) :=
  match s with SRaise c m => Some (c, m) | SOk _ => None end.

(** The exception raised by the collaborator of a stage. *)
Definition raised_at (E : env) (st : stage_id) : option (cexc * string) :=
  match st with
  | StChallenge => stage_exc (e_solve E)
  | StSendCode => stage_exc (e_send E)
  | StAwaitCode => stage_exc (e_code E)
  | StVerifyCode => stage_exc (e_verify E)
  | StRegister => stage_exc (e_register E)
  end.

End Pipeline.

(* ------------------------------------------------------------------ *)
(** ** [KasadaSolver.solve] and [_make_api_request] *)

Module Solver.

(** What one request to the solving service does. *)
Inductive api_resp :=
  | RespStatus (status : Z) (json_ok : bool)  (* a response; json_ok: body parses *)
  | RespTimeout                               (* asyncio.TimeoutError *)
  | RespClientError                           (* aiohttp.ClientError *)
  | RespOther.                                (* any other Exception *)

(** Exceptions leaving [_make_api_request]. *)
Inductive req_exc :=
  | XTimeout | XInvalidAPIKey | XRateLimit | XClientError
  | XSolver          (* KasadaSolverError: bad JSON or other status *)
  | XOther.

Definition make_api_request (r : api_resp) : unit + req_exc :=
  match r with
  | RespStatus s json_ok =>
      if (s =? 200)%Z then (if json_ok then inl tt else inr XSolver)
      else if (s =? 401)%Z then inr XInvalidAPIKey
      else if (s =? 429)%Z then inr XRateLimit
      else if (s =? 403)%Z then inr XInvalidAPIKey
      else inr XSolver
  | RespTimeout => inr XTimeout
  | RespClientError => inr XClientError
  | RespOther => inr XOther
  end.

Inductive solve_outcome :=
  | Solved                (* headers returned by the service *)
  | Mock                  (* test mode *)
  | ErrValue              (* ValueError: fetch_url is required *)
  | ErrInvalidAPIKey
  | ErrRateLimit
  | ErrTimeout            (* kasada_solver.TimeoutError *)
  | ErrSolver.            (* KasadaSolverError *)

Record solve_run := mkRun {
  sr_outcome : solve_outcome;
  sr_requests : nat;        (* calls to _make_api_request *)
  sr_backoffs : list Z      (* asyncio.sleep(2 ** attempt) between attempts *)
}.

Definition MAX_RETRIES : nat := 3.

(** The [for attempt in range(1, MAX_RETRIES + 1)] loop; [resp attempt] is
    the service's behaviour on that attempt, [last] is [last_exception]. *)
Fixpoint attempts (fuel attempt : nat) (resp : nat -> api_resp)
    (last : option solve_outcome) : solve_run :=
  match fuel with
  | O => mkRun (match last with Some x => x | None => ErrSolver end) 0 []
  | S f =>
      let continue_with (l : solve_outcome) :=
        let rest := attempts f (S attempt) resp (Some l) in
        let backoff :=
          if (attempt <? MAX_RETRIES)%nat then [Z.pow 2 (Z.of_nat attempt)]
          else [] in
        mkRun (sr_outcome rest) (S (sr_requests rest))
              (backoff ++ sr_backoffs rest) in
      match make_api_request (resp attempt) with
      | inl _ => mkRun Solved 1 []
      | inr XTimeout => continue_with ErrTimeout
      | inr XInvalidAPIKey => mkRun ErrInvalidAPIKey 1 []
      | inr XRateLimit => mkRun ErrRateLimit 1 []
      | inr XClientError => continue_with ErrSolver
      | inr XSolver | inr XOther => continue_with ErrSolver
      end
  end.

(** [solve(method, fetch_url)] *)
Definition solve (test_mode : bool) (fetch_url : string)
    (resp : nat -> api_resp) : solve_run :=
  if test_mode then mkRun Mock 0 []
  else if fetch_url =? "" then mkRun ErrValue 0 []
  else attempts MAX_RETRIES 1 resp None.

Definition is_4xx (s : Z) : bool := ((400 <=? s)%Z && (s <? 500)%Z).

End Solver.

(* ------------------------------------------------------------------ *)
(** ** [WorkerDaemon.process_job] *)

Module Worker.

(** JSON values of a job payload. *)
Inductive jval := JNull | JInt (z : Z) | JStr (s : string).

Definition job := list (string * jval).

(** [job_data.get(k)] *)
Fixpoint dict_get (k : string) (d : job) : option jval :=
  match d with
  | [] => None
  | (k', v) :: r => if k =? k' then Some v else dict_get k r
  end.

(** [job_data[k] = v]: replaces the value in place, or appends the key. *)
Fixpoint dict_set (k : string) (v : jval) (d : job) : job :=
  match d with
  | [] => [(k, v)]
  | (k', v') :: r => if k =? k' then (k', v) :: r else (k', v') :: dict_set k v r
  end.

Definition jtruthy (v : option jval) : bool :=
  match v with
  | Some (JInt z) => negb (z =? 0)%Z
  | Some (JStr s) => negb (s =? "")
  | _ => false
  end.

(** What [run_in_executor(None, create_account, username, password)]
    yields for one unit. *)
Inductive pyval :=
  | PyNone
  | PyDict (d : list (string * string))
  | PyCoroutine.          (* a coroutine object: truthy, has no [.get] *)

Inductive unit_outcome :=
  | UReturns (v : pyval)
  | URaises (account_creation_error : bool) (msg : string).

Definition truthy (v : pyval) : bool :=
  match v with PyNone => false | PyDict d => negb (length d =? 0)%nat | PyCoroutine => true end.

Inductive unit_error :=
  | ErrReturnedNone (i : nat)                 (* "Account creation returned None ..." *)
  | ErrAccount (i : nat) (msg : string)       (* "Account i failed: ..." *)
  | ErrUnexpected (i : nat) (msg : string).   (* "Unexpected error for account i: ..." *)

Inductive status := Pending | Running | Completed | Failed.

Inductive job_error :=
  | PartialSuccess (created : nat) (count : Z)
  | AllFailed (max_retries : Z) (errors : list unit_error)
  | UnexpectedProcessing (msg : string).

Record job_result := mkJobResult {
  jr_accounts_created : nat;
  jr_accounts : list pyval;
  jr_errors : option (list unit_error)
}.

Record effects := mkEff {
  updates : list (status * option job_error * option job_result);
  pushes : list job;          (* rpush(QUEUE_KEY, json.dumps(job_data)) *)
  returned : option bool;     (* None: an exception escapes *)
  succeeded : nat;            (* increments of jobs_succeeded *)
  failed : nat                (* increments of jobs_failed *)
}.

(** Python [<] between [retry_count] and the int [max_retries]; [None] is a
    TypeError. *)
Definition py_lt (v : jval) (m : Z) : option bool :=
  match v with JInt z => Some (z <? m)%Z | _ => None end.

(** [type(v).__name__], as TypeError messages print it. *)
Definition py_type_name (v : jval) : string :=
  match v with JNull => "NoneType" | JInt _ => "int" | JStr _ => "str" end.

Definition py_succ (v : jval) : jval :=
  match v with JInt z => JInt (z + 1) | _ => v end.

(** The [for i in range(count)] loop: accounts created and errors. *)
Fixpoint units (n i : nat) (unit_of : nat -> unit_outcome)
  : list pyval * list unit_error :=
  match n with
  | O => ([], [])
  | S n' =>
      let '(acc, errs) := units n' (S i) unit_of in
      match unit_of i with
      | URaises true msg => (acc, ErrAccount (S i) msg :: errs)
      | URaises false msg => (acc, ErrUnexpected (S i) msg :: errs)
      | UReturns v =>
          if truthy v then
            match v with
            | PyCoroutine =>      (* account_data.get(...) raises AttributeError *)
                (v :: acc, ErrUnexpected (S i) "'coroutine' object has no attribute 'get'" :: errs)
            | _ => (v :: acc, errs)
            end
          else (acc, ErrReturnedNone (S i) :: errs)
      end
  end.

(** The [except Exception] clause of [process_job]. *)
Definition outer_except (job_data : job) (rc : jval) (max_retries : Z)
    (ups : list (status * option job_error * option job_result))
    (msg : string) : effects :=
  match py_lt rc max_retries with
  | Some true =>
      mkEff (ups ++ [(Pending, None, None)])
            [dict_set "retry_count" (py_succ rc) job_data] (Some false) 0 0
  | Some false =>
      mkEff (ups ++ [(Failed, Some (UnexpectedProcessing msg), None)])
            [] (Some false) 0 1
  | None => mkEff ups [] None 0 0
  end.

(** [process_job(job_data)]; [has_creator] says whether
    [self.account_creator] is already set (otherwise [KickAccountCreator()]
    is called without its required arguments and raises TypeError). *)
Definition process_job (max_retries : Z) (has_creator : bool)
    (job_data : job) (unit_of : nat -> unit_outcome) : effects :=
  if negb (jtruthy (dict_get "id" job_data)) then mkEff [] [] (Some false) 0 0
  else
  let rc := match dict_get "retry_count" job_data with Some v => v | None => JInt 0 end in
  let ups0 := [(Running, None, None)] in
  if negb has_creator then
    outer_except job_data rc max_retries ups0
      ("KickAccountCreator.__init__() missing 2 required positional arguments: "
       ++ "'email_pool' and 'kasada_solver'")
  else
  match match dict_get "count" job_data with Some v => v | None => JInt 1 end with
  | JInt count =>
      let '(acc, errs) := units (Z.to_nat count) 0 unit_of in
      let n := length acc in
      if (Z.of_nat n =? count)%Z then
        mkEff (ups0 ++ [(Completed, None, Some (mkJobResult n acc None))])
              [] (Some true) 1 0
      else if (0 <? n)%nat then
        mkEff (ups0 ++ [(Completed, Some (PartialSuccess n count),
                         Some (mkJobResult n acc (Some errs)))])
              [] (Some true) 1 0
      else
        match py_lt rc max_retries with
        | Some true =>
            mkEff (ups0 ++ [(Pending, None, None)])
                  [dict_set "retry_count" (py_succ rc) job_data] (Some false) 0 0
        | Some false =>
            mkEff (ups0 ++ [(Failed, Some (AllFailed max_retries errs), None)])
                  [] (Some false) 0 1
        | None => outer_except job_data rc max_retries ups0
                    ("'<' not supported between instances of '" ++ py_type_name rc
                     ++ "' and 'int'")
        end
  | v => outer_except job_data rc max_retries ups0
           ("'" ++ py_type_name v ++ "' object cannot be interpreted as an integer")
  end.

(** The status set last for the job. *)
Definition final_status (e : effects) : option status :=
  match last (map (fun u => Some (fst (fst u))) (updates e)) None with
  | Some s => Some s
  | None => None
  end.

Definition unit_fails (o : unit_outcome) : bool :=
  match o with URaises _ _ => true | UReturns v => negb (truthy v) end.

Definition job_count (job_data : job) : jval :=
  match dict_get "count" job_data with Some v => v | None => JInt 1 end.

Definition job_retry (job_data : job) : jval :=
  match dict_get "retry_count" job_data with Some v => v | None => JInt 0 end.

(** The last [update_job_status] call. *)
Definition last_update (e : effects)
  : option (status * option job_error * option job_result) :=
  last (map Some (updates e)) None.

End Worker.

(* ------------------------------------------------------------------ *)
(** ** Random account data: [generate_random_username],
    [generate_random_password] *)

Module Gen.

Definition ascii_lowercase : list ascii := list_ascii_of_string "abcdefghijklmnopqrstuvwxyz".
Definition ascii_uppercase : list ascii := list_ascii_of_string "ABCDEFGHIJKLMNOPQRSTUVWXYZ".
(** [string.ascii_letters] *)
Definition ascii_letters : list ascii := ascii_lowercase ++ ascii_uppercase.
(** [string.digits] *)
Definition digits : list ascii := list_ascii_of_string "0123456789".

(** [random.choices(population, k=k)]: [k] draws, none when [k <= 0]; draw
    [j] picks the element at index [idx j]. *)
Definition choices (population : list ascii) (k : Z) (idx : nat -> nat)
  : list ascii :=
  map (fun j => nth (idx j) population "a"%char) (seq 0 (Z.to_nat k)).

(** [generate_random_username(length)]: [first] is the index drawn by
    [random.choice(string.ascii_letters)]. *)
Definition generate_random_username (length : Z) (first : nat) (idx : nat -> nat)
  : string :=
  let chars := ascii_letters ++ digits ++ ["_"%char] in
  String (nth first ascii_letters "a"%char)
         (string_of_list_ascii (choices chars (length - 1) idx)).

Definition password_chars : list ascii :=
  ascii_letters ++ digits ++ list_ascii_of_string "!@#$%^&*".

(** [generate_random_password(length)] *)
Definition generate_random_password (length : Z) (idx : nat -> nat) : string :=
  string_of_list_ascii (choices password_chars length idx).

End Gen.

(* ------------------------------------------------------------------ *)
(** ** [KickAccountCreator._make_request] *)

Module Http.

(** What one [session.request(...)] does. *)
Inductive http_resp :=
  | HStatus (status : Z)    (* a response with this status *)
  | HTimeout                (* asyncio.TimeoutError *)
  | HError.                 (* any other Exception *)

Inductive mr_outcome :=
  | MRStatus (status : Z)   (* return status, data *)
  | MRRaiseTimeout          (* the asyncio.TimeoutError re-raised *)
  | MRRaiseOther            (* the other exception re-raised *)
  | MRMaxRetries.           (* raise AccountCreationError("Max retry attempts reached") *)

Record mr_run := mkMR {
  mr_out : mr_outcome;
  mr_requests : nat;        (* requests sent *)
  mr_sleeps : nat           (* asyncio.sleep(RETRY_DELAY) calls *)
}.

Definition RETRY_ATTEMPTS : nat := 3.

(** One pass of [for attempt in range(1, attempts + 1)] and the rest of
    the loop. *)
Fixpoint mr_loop (fuel attempt attempts : nat) (resp : nat -> http_resp) : mr_run :=
  match fuel with
  | O => mkMR MRMaxRetries 0 0
  | S f =>
      let retry_or (final : mr_outcome) :=
        if (attempt <? attempts)%nat then
          let r := mr_loop f (S attempt) attempts resp in
          mkMR (mr_out r) (S (mr_requests r)) (S (mr_sleeps r))
        else mkMR final 1 0 in
      match resp attempt with
      | HStatus s =>
          if (s =? 200)%Z then mkMR (MRStatus s) 1 0
          else if (s <? 500)%Z then mkMR (MRStatus s) 1 0
          else retry_or (MRStatus s)
      | HTimeout => retry_or MRRaiseTimeout
      | HError => retry_or MRRaiseOther
      end
  end.

(** [_make_request(..., retry)] *)
Definition make_request (retry : bool) (resp : nat -> http_resp) : mr_run :=
  let attempts := if retry then RETRY_ATTEMPTS else 1%nat in
  mr_loop attempts 1 attempts resp.

(** The response is retried by the loop: a 5xx status or an exception. *)
Definition retryable (r : http_resp) : bool :=
  match r with HStatus s => (500 <=? s)%Z | _ => true end.

End Http.

(* ------------------------------------------------------------------ *)
(** ** [KasadaSolver._enforce_rate_limit] *)

Module RateLimit.

(** [RATE_LIMIT_DELAY], in milliseconds. *)
Definition RATE_LIMIT_DELAY : Z := 1000.

(** One call at wall-clock time [now]: the sleep it requests and the new
    [last_request_time], [time.time()] after the sleep, which may overshoot
    the requested wait by [extra]. *)
Definition enforce_rate_limit (last now extra : Z) : Z * Z :=
  let since := (now - last)%Z in
  let wait := if (since <? RATE_LIMIT_DELAY)%Z then (RATE_LIMIT_DELAY - since)%Z else 0%Z in
  (wait, (now + wait + extra)%Z).

(** Successive calls; each is [(gap, extra)]: the call happens [gap] after
    the previous [last_request_time].  Returns the successive values of
    [last_request_time], i.e. the times the requests go out. *)
Fixpoint request_times (last : Z) (calls : list (Z * Z)) : list Z :=
  match calls with
  | [] => []
  | (gap, extra) :: rest =>
      let t := snd (enforce_rate_limit last (last + gap) extra) in
      t :: request_times t rest
  end.

Fixpoint spaced (prev : Z) (ts : list Z) : Prop :=
  match ts with
  | [] => True
  | t :: rest => (prev + RATE_LIMIT_DELAY <= t)%Z /\ spaced t rest
  end.

End RateLimit.

(* ------------------------------------------------------------------ *)
(** ** Concrete inputs used by the examples below *)

Module Demo.
Import Pool Pipeline Worker.

Definition demo_pool : pool := mkPool [("a@b.c", "pw"); ("d@e.f", "pw2")] [] [].

Definition demo_env (reg : stage (option acct)) : env :=
  mkEnv "user" "pass" "2000-01-01" (SOk tt) (SOk true) (SOk "123456")
        (SOk (Some "tok")) reg.

Definition demo_job : job := [("id", JStr "job-1"); ("count", JInt 2); ("retry_count", JInt 1)].

Definition demo_fail (i : nat) : unit_outcome :=
  if (i =? 0)%nat then URaises true "Max retry attempts reached" else UReturns PyNone.

(** The dict [create_account] returns when registration fails. *)
Definition demo_failure_dict : list (string * string) :=
  [("success", "False"); ("error", "Registration failed");
   ("message", "Failed to register account"); ("email", "a@b.c")].

Definition demo_reported_failure (i : nat) : unit_outcome :=
  UReturns (PyDict demo_failure_dict).


End Demo.

(* ================================================================== *)
(** * Properties *)

(** ** Credential pool *)

Module PoolFacts.
Import Pool.

Lemma mem_In (x : string) (s : list string) : mem x s = true <-> In x s.
Proof.
  unfold mem. rewrite existsb_exists. split.
  - intros [y [Hy Heq]]. apply String.eqb_eq in Heq. subst. exact Hy.
  - intros H. exists x. split; [exact H | apply String.eqb_refl].
Qed.

Lemma mem_false_notIn (x : string) (s : list string) :
  mem x s = false <-> ~ In x s.
Proof.
  rewrite <- mem_In. destruct (mem x s); split; congruence.
Qed.

Lemma set_add_In (x y : string) (s : list string) :
  In y (set_add x s) <-> y = x \/ In y s.
Proof.
  unfold set_add. destruct (existsb (String.eqb x) s) eqn:E.
  - fold (mem x s) in E. apply mem_In in E. split; [tauto|].
    intros [->|H]; assumption.
  - rewrite in_app_iff. simpl. split; intros [H|H]; intuition.
Qed.

Lemma set_add_NoDup (x : string) (s : list string) :
  NoDup s -> NoDup (set_add x s).
Proof.
  intros Hs. unfold set_add. destruct (existsb (String.eqb x) s) eqn:E.
  - exact Hs.
  - fold (mem x s) in E. apply mem_false_notIn in E.
    apply NoDup_app; auto using NoDup_cons, NoDup_nil.
    intros y Hy Hy'. destruct Hy' as [<-|[]]. contradiction.
Qed.

Lemma set_add_count (x : string) (s : list string) :
  NoDup s -> count_occ string_dec (set_add x s) x = 1%nat.
Proof.
  intros Hs. apply (proj1 (NoDup_count_occ' string_dec _)).
  - apply set_add_NoDup, Hs.
  - apply set_add_In. left. reflexivity.
Qed.

Lemma In_ids_remove (e x : email) (l : list (email * secret)) :
  In e (ids (remove_email x l)) <-> In e (ids l) /\ e <> x.
Proof.
  unfold ids, remove_email. rewrite !in_map_iff. split.
  - intros [[a b] [Ha Hin]]. simpl in Ha. subst a.
    apply filter_In in Hin as [Hin Hf]. simpl in Hf.
    split; [exists (e, b); auto|].
    intros ->. rewrite String.eqb_refl in Hf. discriminate.
  - intros [[[a b] [Ha Hin]] Hne]. simpl in Ha. subst a.
    exists (e, b). split; [reflexivity|]. apply filter_In. split; [exact Hin|].
    simpl. apply String.eqb_neq in Hne. rewrite Hne. reflexivity.
Qed.


Lemma Inv_empty : Inv empty_pool.
Proof. repeat split; simpl; try tauto; constructor. Qed.

Lemma load_lines_Inv (lines : list string) (p : pool) :
  Inv p -> Inv (fst (load_lines lines p)).
Proof.
  revert p. induction lines as [|raw rest IH]; intros p Hp; simpl.
  - exact Hp.
  - destruct (parse_line raw) as [| | |e pw]; try (apply IH; exact Hp); try exact Hp.
    destruct (mem e (used_emails p)) eqn:Eu; simpl.
    + apply IH, Hp.
    + destruct (mem e (failed_emails p)) eqn:Ef; simpl.
      * apply IH, Hp.
      * apply IH. destruct Hp as [Ha [Hu Hf]].
        split; [|split; assumption]. simpl.
        intros x Hx. unfold ids in Hx. rewrite map_app, in_app_iff in Hx.
        destruct Hx as [Hx|[Hx|[]]].
        -- apply Ha, Hx.
        -- simpl in Hx. subst x.
           split; apply mem_false_notIn; assumption.
Qed.

Lemma load_emails_Inv (f : option (list string)) (p : pool) :
  Inv p -> Inv (fst (load_emails f p)).
Proof. destruct f; simpl; [apply load_lines_Inv | exact id]. Qed.

Lemma init_Inv (f : option (list string)) (p : pool) :
  init f = Some p -> Inv p.
Proof.
  unfold init. intros H.
  pose proof (load_emails_Inv f empty_pool Inv_empty) as Hi.
  destruct (load_emails f empty_pool) as [q [e|]]; [discriminate|].
  injection H as <-. exact Hi.
Qed.

Lemma step_Inv (p : pool) (o : op) : Inv p -> Inv (step p o).
Proof.
  intros Hp. pose proof Hp as [Ha [Hu Hf]].
  destruct o as [e|e| |f]; simpl.
  - split; [|split; [apply set_add_NoDup|]; assumption].
    intros x Hx. simpl in Hx. apply In_ids_remove in Hx as [Hx Hne].
    destruct (Ha x Hx) as [H1 H2]. simpl.
    split; [rewrite set_add_In; intuition | exact H2].
  - split; [|split; [|apply set_add_NoDup]; assumption].
    intros x Hx. simpl in Hx. apply In_ids_remove in Hx as [Hx Hne].
    destruct (Ha x Hx) as [H1 H2]. simpl.
    split; [exact H1 | rewrite set_add_In; intuition].
  - exact Hp.
  - unfold reload. apply load_emails_Inv.
    split; [simpl; tauto | split; assumption].
Qed.

Lemma run_Inv (p : pool) (ops : list op) : Inv p -> Inv (run p ops).
Proof.
  unfold run. revert p. induction ops as [|o ops IH]; intros p Hp; simpl.
  - exact Hp.
  - apply IH, step_Inv, Hp.
Qed.

Lemma load_lines_repeat (p : pool) (line : string) (e : email) (pw : secret)
    (k : nat) :
  parse_line line = LEntry e pw ->
  mem e (used_emails p) = false -> mem e (failed_emails p) = false ->
  load_lines (repeat line k) p =
    (mkPool (available_emails p ++ repeat (e, pw) k)
            (used_emails p) (failed_emails p), None).
Proof.
  intros Hl Hu Hf. revert p Hu Hf. induction k as [|k IH]; intros p Hu Hf; simpl.
  - rewrite app_nil_r. destruct p; reflexivity.
  - rewrite Hl, Hu, Hf. simpl. rewrite IH by assumption. simpl.
    rewrite <- app_assoc. reflexivity.
Qed.

Lemma ids_remove_self (e : email) (l : list (email * secret)) :
  ~ In e (ids (remove_email e l)).
Proof. rewrite In_ids_remove. tauto. Qed.

End PoolFacts.

Module PoolClaims.
Import Pool PoolFacts.

(** C1 (counterexample): marking does not check the identifier.  After
    loading one credential, [mark_as_used] then [mark_as_failed] on it
    leaves it in both [used] and [failed]; and [mark_as_used] on an
    identifier that was never loaded adds it to [used]. *)
Lemma C1_marks_not_noop :
  exists p, init (Some ["a@b.c:pw"]) = Some p /\
    (let q := run p [MarkUsed "a@b.c"; MarkFailed "a@b.c"] in
     In "a@b.c" (used_emails q) /\ In "a@b.c" (failed_emails q)) /\
    used_emails (run p [MarkUsed "x@y.z"]) <> used_emails p.
Proof.
  eexists. split; [vm_compute; reflexivity|].
  split; [vm_compute; auto | vm_compute; discriminate].
Qed.

(** C1 (amended): on a pool whose construction succeeded, after any sequence
    of [mark_as_used] / [mark_as_failed] / [get_next_email] / [reload]
    calls, no identifier in [available] is in [used] or in [failed], and
    each terminal set holds an identifier at most once. *)
Theorem C1_available_never_terminal (file : option (list string)) (p : pool)
    (ops : list op) :
  init file = Some p ->
  let q := run p ops in
  (forall e, In e (ids (available_emails q)) ->
     ~ In e (used_emails q) /\ ~ In e (failed_emails q))
  /\ NoDup (used_emails q) /\ NoDup (failed_emails q).
Proof.
  intros Hinit. apply run_Inv, (init_Inv file), Hinit.
Qed.

Lemma C1_witness :
  init (Some ["a@b.c:pw"; "d@e.f:pw2"]) =
    Some (mkPool [("a@b.c", "pw"); ("d@e.f", "pw2")] [] []) /\
  (let q := run (mkPool [("a@b.c", "pw"); ("d@e.f", "pw2")] [] [])
              [GetNext; MarkUsed "a@b.c"; Reload (Some ["a@b.c:pw"; "d@e.f:pw2"])] in
   (forall e, In e (ids (available_emails q)) ->
      ~ In e (used_emails q) /\ ~ In e (failed_emails q))
   /\ NoDup (used_emails q) /\ NoDup (failed_emails q)).
Proof.
  split; [vm_compute; reflexivity|].
  apply (C1_available_never_terminal (Some ["a@b.c:pw"; "d@e.f:pw2"])).
  vm_compute. reflexivity.
Defined.

(** C10: a line repeated [k] times in the source adds [k] available
    entries (and [k] to the [available] and [total] statistics); a single
    [mark_as_used] (resp. [mark_as_failed]) then removes every available
    entry with that identifier and the terminal set holds it exactly once. *)
Theorem C10_duplicates_loaded_then_all_removed (p : pool) (line : string)
    (e : email) (pw : secret) (k : nat) :
  parse_line line = LEntry e pw ->
  ~ In e (used_emails p) -> ~ In e (failed_emails p) ->
  NoDup (used_emails p) -> NoDup (failed_emails p) ->
  let '(p1, err) := load_lines (repeat line k) p in
  err = None /\
  available_emails p1 = available_emails p ++ repeat (e, pw) k /\
  st_available (get_stats p1) = (length (available_emails p) + k)%nat /\
  st_total (get_stats p1) = (st_total (get_stats p) + k)%nat /\
  ~ In e (ids (available_emails (mark_as_used e p1))) /\
  count_occ string_dec (used_emails (mark_as_used e p1)) e = 1%nat /\
  ~ In e (ids (available_emails (mark_as_failed e p1))) /\
  count_occ string_dec (failed_emails (mark_as_failed e p1)) e = 1%nat.
Proof.
  intros Hl Hu Hf Hnu Hnf.
  apply mem_false_notIn in Hu, Hf.
  rewrite (load_lines_repeat p line e pw k Hl Hu Hf).
  unfold get_stats; simpl.
  rewrite length_app, repeat_length.
  repeat split; try reflexivity; try lia;
    try apply ids_remove_self; apply set_add_count; assumption.
Qed.

Lemma C10_witness :
  parse_line "a@b.c:pw" = LEntry "a@b.c" "pw" /\
  let '(p1, err) := load_lines (repeat "a@b.c:pw" 2) empty_pool in
  err = None /\
  available_emails p1 = available_emails empty_pool ++ repeat ("a@b.c", "pw") 2 /\
  st_available (get_stats p1) = (length (available_emails empty_pool) + 2)%nat /\
  st_total (get_stats p1) = (st_total (get_stats empty_pool) + 2)%nat /\
  ~ In "a@b.c" (ids (available_emails (mark_as_used "a@b.c" p1))) /\
  count_occ string_dec (used_emails (mark_as_used "a@b.c" p1)) "a@b.c" = 1%nat /\
  ~ In "a@b.c" (ids (available_emails (mark_as_failed "a@b.c" p1))) /\
  count_occ string_dec (failed_emails (mark_as_failed "a@b.c" p1)) "a@b.c" = 1%nat.
Proof.
  split; [vm_compute; reflexivity|].
  apply (C10_duplicates_loaded_then_all_removed empty_pool "a@b.c:pw" "a@b.c" "pw" 2).
  - vm_compute. reflexivity.
  - simpl. tauto.
  - simpl. tauto.
  - constructor.
  - constructor.
Defined.

End PoolClaims.

(** ** Code extraction *)

Module ExtractClaims.
Import Extract.

(** C4 (failing input): [CODE_PATTERNS] lists the generic [\b(\d{4,8})\b]
    pattern first, so on a text with an unlabelled 4-digit run before a
    labelled code, the labelled pattern matches the code but the extractor
    returns the unlabelled run; and the subject/body search of
    [_search_verification_email] returns it as well. *)
Lemma C4_generic_pattern_wins :
  search (PLabel "code") "Ref 1234 code: 567890" = Some "567890" /\
  search (PLabel "your code is") "Ref 1234 your code is 567890" = Some "567890" /\
  extract_code_from_text "Ref 1234 code: 567890" = Some "1234" /\
  extract_code_from_text "Ref 1234 your code is 567890" = Some "1234" /\
  search_messages [("Your Kick code", "Ref 1234 code: 567890")] = Some "1234".
Proof. vm_compute. repeat split. Qed.

End ExtractClaims.

(** ** Mailbox poller *)

Module PollerFacts.
Import Poller.

Lemma poll_loop_raise_bound (T p M : Z) (polls : list poll) :
  forall (now : Z) (n : nat) (t : Z) (k : nat) (s : list (Z * Z)),
  (now <= T + M)%Z ->
  Forall (fun pl => poll_time pl <= M)%Z polls ->
  no_code polls ->
  poll_loop T p now n polls = (NoEmailReceived t k, s) ->
  (T < t <= T + M)%Z.
Proof.
  induction polls as [|pl rest IH]; intros now n t k s Hnow Hd Hc Hrun; simpl in Hrun.
  - destruct (now >? T)%Z eqn:E; [|discriminate].
    injection Hrun as <- _ _. apply Z.gtb_lt in E. lia.
  - destruct (now >? T)%Z eqn:E.
    + injection Hrun as <- _ _. apply Z.gtb_lt in E. lia.
    + rewrite Z.gtb_ltb in E; apply Z.ltb_ge in E. inversion Hd as [|? ? Hd1 Hd2]; subst.
      inversion Hc as [|? ? Hc1 Hc2]; subst. rewrite Hc1 in Hrun.
      destruct (Z.min p (T - now) >? 0)%Z eqn:W.
      * destruct (poll_loop T p (now + poll_time pl + Z.min p (T - now)) (S n) rest)
          as [o s'] eqn:R.
        injection Hrun as -> _.
        eapply IH; [| exact Hd2 | exact Hc2 | exact R]. lia.
      * destruct (poll_loop T p (now + poll_time pl) (S n) rest) as [o s'] eqn:R.
        injection Hrun as -> _.
        eapply IH; [| exact Hd2 | exact Hc2 | exact R]. lia.
Qed.

Lemma poll_loop_sleeps (T p : Z) (polls : list poll) :
  forall (now : Z) (n : nat),
  Forall (fun '(e, w) => w = Z.min p (T - e) /\ 0 < w /\ e + w <= T)%Z
    (snd (poll_loop T p now n polls)).
Proof.
  induction polls as [|pl rest IH]; intros now n; simpl.
  - destruct (now >? T)%Z; simpl; constructor.
  - destruct (now >? T)%Z eqn:E; simpl; [constructor|].
    rewrite Z.gtb_ltb in E; apply Z.ltb_ge in E.
    destruct (poll_code pl); simpl; [constructor|].
    destruct (Z.min p (T - now) >? 0)%Z eqn:W.
    + specialize (IH (now + poll_time pl + Z.min p (T - now))%Z (S n)).
      destruct (poll_loop T p _ (S n) rest) as [o s'] eqn:R. simpl in *.
      constructor; [|exact IH]. apply Z.gtb_lt in W. lia.
    + specialize (IH (now + poll_time pl)%Z (S n)).
      destruct (poll_loop T p _ (S n) rest) as [o s'] eqn:R. exact IH.
Qed.

(** With polls that take at least one tick and no code, the loop ends by
    raising once enough polls are available. *)
Lemma poll_loop_ends (T p : Z) (polls : list poll) :
  forall (now : Z) (n : nat),
  Forall (fun pl => 1 <= poll_time pl)%Z polls ->
  no_code polls ->
  (T < now + Z.of_nat (length polls))%Z ->
  exists t k, fst (poll_loop T p now n polls) = NoEmailReceived t k.
Proof.
  induction polls as [|pl rest IH]; intros now n Hd Hc Hlen; simpl.
  - simpl in Hlen. destruct (now >? T)%Z eqn:E; [do 2 eexists; reflexivity|].
    rewrite Z.gtb_ltb in E; apply Z.ltb_ge in E. lia.
  - destruct (now >? T)%Z eqn:E; [do 2 eexists; reflexivity|].
    inversion Hd as [|? ? Hd1 Hd2]; subst.
    inversion Hc as [|? ? Hc1 Hc2]; subst. rewrite Hc1.
    simpl length in Hlen. rewrite Nat2Z.inj_succ in Hlen.
    destruct (Z.min p (T - now) >? 0)%Z eqn:W.
    + destruct (IH (now + poll_time pl + Z.min p (T - now))%Z (S n) Hd2 Hc2)
        as [t [k Ht]]; [apply Z.gtb_lt in W; lia|].
      destruct (poll_loop T p _ (S n) rest) as [o s'] eqn:R. simpl in *. eauto.
    + destruct (IH (now + poll_time pl)%Z (S n) Hd2 Hc2) as [t [k Ht]]; [lia|].
      destruct (poll_loop T p _ (S n) rest) as [o s'] eqn:R. simpl in *. eauto.
Qed.

End PollerFacts.

Module PollerClaims.
Import Poller PollerFacts.

(** C5 (counterexample): with timeout 10, poll interval 5 and a first poll
    whose blocking search takes 20 ticks, the call raises
    [NoEmailReceivedError] at elapsed time 25, later than timeout plus one
    poll interval (15): the bound does not hold once a single search
    blocks for longer than the poll interval. *)
Lemma C5_late_raise :
  get_verification_code true 10 5 [mkPoll 20 None] =
    (NoEmailReceived 25 2, [(0, 5)]%Z) /\ (25 > 10 + 5)%Z.
Proof. split; [reflexivity | lia]. Qed.

(** C5 (amended): when the connection succeeds, the timeout [T] is
    non-negative, no poll yields a code, and each poll (search call plus
    latency) lasts between 1 and [M] ticks, then, given enough polls, the
    call raises [NoEmailReceivedError] at an elapsed time [t] with
    [T < t <= T + M]: the overshoot past the timeout is bounded by the
    longest poll, not by the poll interval. *)
Theorem C5_raise_window (T p M : Z) (polls : list poll) :
  (0 <= T)%Z ->
  Forall (fun pl => 1 <= poll_time pl <= M)%Z polls ->
  no_code polls ->
  (T < Z.of_nat (length polls))%Z ->
  match get_verification_code true T p polls with
  | (NoEmailReceived t _, sleeps) =>
      (T < t <= T + M)%Z
  | _ => False
  end.
Proof.
  intros HT Hd Hc Hlen. unfold get_verification_code.
  destruct (poll_loop_ends T p polls 0 0) as [t [k Hend]];
    [eapply Forall_impl; [|exact Hd]; simpl; intros; lia | exact Hc | lia |].
  destruct (poll_loop T p 0 0 polls) as [o s] eqn:R. simpl in Hend. subst o.
  eapply (poll_loop_raise_bound T p M polls 0 0 t k s); [| | exact Hc | exact R].
  - assert (1 <= M)%Z.
    { destruct polls as [|pl rest]; simpl in Hlen; [lia|].
      inversion Hd as [|? ? Hd1 _]; lia. }
    lia.
  - eapply Forall_impl; [|exact Hd]. simpl. intros; lia.
Qed.

Lemma C5_witness :
  (0 <= 10)%Z /\
  Forall (fun pl => 1 <= poll_time pl <= 2)%Z (repeat (mkPoll 2 None) 11) /\
  no_code (repeat (mkPoll 2 None) 11) /\
  (10 < Z.of_nat (length (repeat (mkPoll 2 None) 11)))%Z /\
  match get_verification_code true 10 5 (repeat (mkPoll 2 None) 11) with
  | (NoEmailReceived t _, sleeps) =>
      (10 < t <= 10 + 2)%Z
  | _ => False
  end.
Proof.
  assert (Hd : Forall (fun pl => 1 <= poll_time pl <= 2)%Z (repeat (mkPoll 2 None) 11)).
  { repeat constructor; simpl; lia. }
  assert (Hc : no_code (repeat (mkPoll 2 None) 11)).
  { repeat constructor. }
  refine (conj _ (conj Hd (conj Hc (conj _ _)))).
  - lia.
  - simpl. lia.
  - apply (C5_raise_window 10 5 2 (repeat (mkPoll 2 None) 11)); [lia | exact Hd | exact Hc |].
    simpl. lia.
Defined.

End PollerClaims.

(** ** Account pipeline *)

Module PipelineFacts.
Import Pool PoolFacts Pipeline.


Lemma try_block_spec (p : pool) (E : env) (u pw bd : option string)
    (em : email) (sec : secret) (rest : list (email * secret)) :
  available_emails p = (em, sec) :: rest ->
  match failure_at E with
  | None => exists r, try_block p E u pw bd = inl (mark_as_used em p, r) /\
      r_success r = true /\ r_error r = None /\ r_message r = None /\
      r_email r = Some em /\ r_username r <> None /\ r_password r <> None /\
      r_birthdate r <> None /\ r_verification_code r <> None /\
      truthy_acct (r_account_data r) = true
  | Some (_, Some c) => exists m, try_block p E u pw bd = inr (p, Some em, Collab c m)
  | Some (StRegister, None) =>
      exists m, try_block p E u pw bd = inr (p, Some em, RegistrationFailed m)
  | Some (_, None) =>
      exists m, try_block p E u pw bd = inr (p, Some em, VerificationFailed m)
  end.
Proof.
  intros Hav. unfold try_block, get_next_email, failure_at. rewrite Hav.
  destruct E as [gu gp gb so se sc sv sr]; simpl.
  destruct so as [[]|c m]; simpl; [|(eexists; reflexivity)].
  destruct se as [[]|c m]; simpl; [|(eexists; reflexivity)|(eexists; reflexivity)].
  destruct sc as [code|c m]; simpl; [|(eexists; reflexivity)].
  destruct sv as [tok|c m]; simpl; [|(eexists; reflexivity)].
  destruct (negb (truthy_str tok)); simpl; [(eexists; reflexivity)|].
  destruct sr as [d|c m]; simpl; [|(eexists; reflexivity)].
  destruct (truthy_acct d) eqn:Hd; simpl; [|(eexists; reflexivity)].
  eexists. split; [reflexivity|]. cbn [r_success r_error r_message r_email
    r_username r_password r_birthdate r_verification_code r_account_data].
  repeat split; first [discriminate | exact Hd].
Qed.

Lemma try_block_collab (p : pool) (E : env) (u pw bd : option string)
    (em : email) (sec : secret) (rest : list (email * secret))
    (st : stage_id) (c : cexc) (m : string) :
  available_emails p = (em, sec) :: rest ->
  failure_at E = Some (st, Some c) -> raised_at E st = Some (c, m) ->
  try_block p E u pw bd = inr (p, Some em, Collab c m).
Proof.
  intros Hav Hf Hr. unfold try_block, get_next_email. rewrite Hav.
  unfold failure_at in Hf. unfold raised_at in Hr.
  destruct E as [gu gp gb so se sc sv sr]; cbn [e_solve e_send e_code e_verify e_register] in *.
  destruct so as [[]|c1 m1]; cbn in Hf |- *;
    [|destruct st; cbn in Hr; congruence].
  destruct se as [[]|c1 m1]; cbn in Hf |- *;
    [| congruence | destruct st; cbn in Hr; congruence].
  destruct sc as [code|c1 m1]; cbn in Hf |- *;
    [|destruct st; cbn in Hr; congruence].
  destruct sv as [tok|c1 m1]; cbn in Hf |- *;
    [|destruct st; cbn in Hr; congruence].
  destruct (negb (truthy_str tok)); cbn in Hf |- *; [congruence|].
  destruct sr as [d|c1 m1]; cbn in Hf |- *;
    [|destruct st; cbn in Hr; congruence].
  destruct (truthy_acct d); cbn in Hf; congruence.
Qed.

Lemma if_email_some (f : email -> pool -> pool) (em : email) (p : pool) :
  em <> "" -> if_email f (Some em) p = f em p.
Proof.
  intros H. unfold if_email, truthy_str.
  apply String.eqb_neq in H. rewrite H. reflexivity.
Qed.

Lemma mark_used_in (em : email) (p : pool) :
  Inv p -> In em (ids (available_emails p)) ->
  In em (used_emails (mark_as_used em p)) /\
  ~ In em (failed_emails (mark_as_used em p)).
Proof.
  intros [Ha _] Hin. simpl. split; [apply set_add_In; left; reflexivity|].
  apply (Ha em Hin).
Qed.

Lemma mark_failed_in (em : email) (p : pool) :
  Inv p -> In em (ids (available_emails p)) ->
  In em (failed_emails (mark_as_failed em p)) /\
  ~ In em (used_emails (mark_as_failed em p)).
Proof.
  intros [Ha _] Hin. simpl. split; [apply set_add_In; left; reflexivity|].
  apply (Ha em Hin).
Qed.

End PipelineFacts.

Module PipelineClaims.
Import Pool PoolFacts Pipeline PipelineFacts Demo.

(** C2: for a credential taken from a pool satisfying [Inv] (every pool
    that was constructed and then used, by [C1_available_never_terminal]),
    a run that fails at the Register stage with [RegistrationFailedError]
    leaves the credential in [used] and not in [failed]; a run that fails
    with an [Exception] at an earlier stage (challenge, send-code,
    await-code, verify-code) leaves it in [failed] and not in [used]. *)
Theorem C2_register_used_earlier_failed (p : pool) (E : env)
    (u pw bd : option string) (em : email) (sec : secret)
    (rest : list (email * secret)) :
  Inv p -> available_emails p = (em, sec) :: rest -> em <> "" ->
  (failure_at E = Some (StRegister, None) ->
     In em (used_emails (final_pool (create_account p E u pw bd))) /\
     ~ In em (failed_emails (final_pool (create_account p E u pw bd)))) /\
  (forall st c, failure_at E = Some (st, c) -> st <> StRegister ->
     c <> Some CBase ->
     In em (failed_emails (final_pool (create_account p E u pw bd))) /\
     ~ In em (used_emails (final_pool (create_account p E u pw bd)))).
Proof.
  intros Hinv Hav Hne.
  assert (Hin : In em (ids (available_emails p))) by (rewrite Hav; left; reflexivity).
  pose proof (try_block_spec p E u pw bd em sec rest Hav) as Hspec.
  unfold create_account. split.
  - intros Hf. rewrite Hf in Hspec. cbn in Hspec. destruct Hspec as [m ->]. simpl.
    rewrite if_email_some by exact Hne. apply mark_used_in; assumption.
  - intros st c Hf Hst Hc. rewrite Hf in Hspec.
    destruct c as [c|].
    + destruct st; cbn in Hspec; destruct Hspec as [m ->]; simpl;
      destruct c; try (exfalso; apply Hc; reflexivity);
        simpl; rewrite if_email_some by exact Hne; apply mark_failed_in; assumption.
    + destruct st; try (exfalso; apply Hst; reflexivity); cbn in Hspec;
        destruct Hspec as [m ->]; simpl;
        rewrite if_email_some by exact Hne; apply mark_failed_in; assumption.
Qed.


Lemma C2_witness :
  (Inv demo_pool /\ available_emails demo_pool = ("a@b.c", "pw") :: [("d@e.f", "pw2")]
   /\ "a@b.c" <> "") /\
  ((failure_at (demo_env (SOk None)) = Some (StRegister, None) ->
     In "a@b.c" (used_emails (final_pool (create_account demo_pool (demo_env (SOk None)) None None None))) /\
     ~ In "a@b.c" (failed_emails (final_pool (create_account demo_pool (demo_env (SOk None)) None None None)))) /\
   (forall st c, failure_at (demo_env (SOk None)) = Some (st, c) -> st <> StRegister ->
     c <> Some CBase ->
     In "a@b.c" (failed_emails (final_pool (create_account demo_pool (demo_env (SOk None)) None None None))) /\
     ~ In "a@b.c" (used_emails (final_pool (create_account demo_pool (demo_env (SOk None)) None None None))))).
Proof.
  assert (Hi : Inv demo_pool).
  { split; [|split; constructor]. simpl. tauto. }
  refine (conj (conj Hi (conj eq_refl _)) _); [discriminate|].
  apply (C2_register_used_earlier_failed demo_pool (demo_env (SOk None)) None None None
           "a@b.c" "pw" [("d@e.f", "pw2")]); [exact Hi | reflexivity | discriminate].
Defined.

(** C3 (counterexample): an unclassified exception raised by the register
    call (e.g. the request timing out on every attempt) is mapped to
    "Unexpected error" and the credential is marked failed, not used. *)
Lemma C3_register_exception_marks_failed :
  exists r,
    create_account demo_pool (demo_env (SRaise COther "timeout")) None None None
      = Returned (mkPool [("d@e.f", "pw2")] [] ["a@b.c"]) r /\
    r_success r = false /\ r_error r = Some "Unexpected error" /\
    failure_at (demo_env (SRaise COther "timeout")) = Some (StRegister, Some COther).
Proof. eexists. vm_compute. repeat split. Qed.

(** C3 (amended): an unclassified [Exception] (not an
    [EmailVerificationError], [KasadaSolverError], [VerificationFailedError]
    or [RegistrationFailedError]) raised with message [m] at any stage after
    the credential was acquired, Register included, is caught and returned
    as the failure dict [{"success": False, "error": "Unexpected error",
    "message": m, "email": email}], and [mark_as_failed(email)] is
    applied. *)
Theorem C3_unexpected_marks_failed (p : pool) (E : env) (u pw bd : option string)
    (em : email) (sec : secret) (rest : list (email * secret))
    (st : stage_id) (c : cexc) (m : string) :
  available_emails p = (em, sec) :: rest -> em <> "" ->
  failure_at E = Some (st, Some c) -> raised_at E st = Some (c, m) ->
  (c = COther \/ c = CAccountCreation) ->
  create_account p E u pw bd =
    Returned (mark_as_failed em p)
      (mkResult false (Some "Unexpected error") (Some m) (Some em)
         None None None None None).
Proof.
  intros Hav Hne Hf Hr Hc. unfold create_account.
  rewrite (try_block_collab p E u pw bd em sec rest st c m Hav Hf Hr).
  destruct Hc as [-> | ->]; cbn [handle failure exc_message];
    rewrite if_email_some by exact Hne; reflexivity.
Qed.

Lemma C3_witness :
  available_emails demo_pool = ("a@b.c", "pw") :: [("d@e.f", "pw2")] /\
  "a@b.c" <> "" /\
  failure_at (demo_env (SRaise COther "timeout")) = Some (StRegister, Some COther) /\
  raised_at (demo_env (SRaise COther "timeout")) StRegister = Some (COther, "timeout") /\
  create_account demo_pool (demo_env (SRaise COther "timeout")) None None None
    = Returned (mark_as_failed "a@b.c" demo_pool)
        (mkResult false (Some "Unexpected error") (Some "timeout") (Some "a@b.c")
           None None None None None).
Proof.
  split; [reflexivity|]. split; [discriminate|]. split; [reflexivity|].
  split; [reflexivity|].
  apply (C3_unexpected_marks_failed demo_pool (demo_env (SRaise COther "timeout"))
           None None None "a@b.c" "pw" [("d@e.f", "pw2")] StRegister COther "timeout");
    [reflexivity | discriminate | reflexivity | reflexivity | left; reflexivity].
Defined.


(** C9 (counterexample): the success dict carries no error kind and no
    message, and a collaborator's [asyncio.CancelledError] (a
    [BaseException]) escapes [create_account]. *)
Lemma C9_success_has_no_error_and_cancel_escapes :
  (exists p r,
     create_account demo_pool (demo_env (SOk (Some [("id", "1")]))) None None None
       = Returned p r /\ r_success r = true /\ r_error r = None /\ r_message r = None) /\
  create_account demo_pool (mkEnv "user" "pass" "2000-01-01" (SRaise CBase "cancelled")
                              (SOk true) (SOk "1") (SOk None) (SOk None)) None None None
    = Raised demo_pool CBase "cancelled".
Proof. split; [do 2 eexists; vm_compute; repeat split | vm_compute; reflexivity]. Qed.

(** C9 (amended): [create_account] returns a result dict unless a
    collaborator raises a [BaseException] that is not an [Exception]
    ([asyncio.CancelledError]), which then propagates.  The returned dict
    carries the acquired email ([None] when the pool was empty); a failure
    dict carries [success=False], an error kind and a message; the success
    dict carries [success=True], username, password, birthdate and
    verification code, the (non-empty) account data, and no error kind or
    message. *)
Theorem C9_result_shape (p : pool) (E : env) (u pw bd : option string) :
  match create_account p E u pw bd with
  | Returned _ r =>
      (available_emails p = [] \/ forall st, failure_at E <> Some (st, Some CBase)) /\
      r_email r = option_map fst (hd_error (available_emails p)) /\
      (if r_success r
       then r_error r = None /\ r_message r = None /\ r_username r <> None /\
            r_password r <> None /\ r_birthdate r <> None /\
            r_verification_code r <> None /\
            truthy_acct (r_account_data r) = true
       else r_error r <> None /\ r_message r <> None)
  | Raised _ c _ =>
      c = CBase /\ available_emails p <> [] /\
      exists st, failure_at E = Some (st, Some CBase)
  end.
Proof.
  destruct (available_emails p) as [|[em sec] rest] eqn:Hav.
  - unfold create_account, try_block, get_next_email. rewrite Hav. simpl.
    split; [left; reflexivity|]. split; [reflexivity|]. split; discriminate.
  - pose proof (try_block_spec p E u pw bd em sec rest Hav) as Hspec.
    unfold create_account.
    destruct (failure_at E) as [[st [c|]]|] eqn:Hf.
    + destruct st; cbn in Hspec; destruct Hspec as [m ->];
        destruct c; simpl;
        first [ split; [reflexivity|]; split; [discriminate|]; eexists; reflexivity
              | split; [right; intros st' H'; inversion H'|];
                split; [reflexivity|]; split; discriminate ].
    + destruct st; cbn in Hspec; destruct Hspec as [m ->]; simpl;
        (split; [right; intros st' H'; inversion H'|];
         split; [reflexivity|]; split; discriminate).
    + destruct Hspec as [r [-> [Hs [He [Hm [Hem Hrest]]]]]].
      split; [right; intros st' H'; inversion H'|].
      rewrite Hs. split; [exact Hem|]. split; [exact He|]. split; [exact Hm|]. exact Hrest.
Qed.

End PipelineClaims.

(** ** Challenge client *)

Module SolverClaims.
Import Solver.

(** C8 (failing input): with the service answering 400 (or 404) on every
    attempt, [solve] calls the service three times with backoffs of 2 and
    4 seconds before raising [KasadaSolverError], although 401, 403 and 429
    are surfaced after a single call. *)
Lemma C8_client_error_retried :
  solve false "https://kick.com/api/test" (fun _ => RespStatus 400 true)
    = mkRun ErrSolver 3 [2; 4]%Z /\
  solve false "https://kick.com/api/test" (fun _ => RespStatus 404 true)
    = mkRun ErrSolver 3 [2; 4]%Z /\
  solve false "https://kick.com/api/test" (fun _ => RespStatus 401 true)
    = mkRun ErrInvalidAPIKey 1 [] /\
  solve false "https://kick.com/api/test" (fun _ => RespStatus 403 true)
    = mkRun ErrInvalidAPIKey 1 [] /\
  solve false "https://kick.com/api/test" (fun _ => RespStatus 429 true)
    = mkRun ErrRateLimit 1 [] /\
  is_4xx 400 = true /\ is_4xx 404 = true.
Proof. vm_compute. repeat split. Qed.

End SolverClaims.

(** ** Worker daemon *)

Module WorkerFacts.
Import Worker.


Lemma units_all_fail (unit_of : nat -> unit_outcome) :
  forall n i,
  (forall j, (i <= j < i + n)%nat -> unit_fails (unit_of j) = true) ->
  fst (units n i unit_of) = [] /\ length (snd (units n i unit_of)) = n.
Proof.
  induction n as [|n IH]; intros i Hall; simpl; [split; reflexivity|].
  destruct (IH (S i)) as [H1 H2]; [intros j Hj; apply Hall; lia|].
  destruct (units n (S i) unit_of) as [acc errs]. simpl in H1, H2. subst acc.
  specialize (Hall i ltac:(lia)).
  destruct (unit_of i) as [v|[] msg]; simpl in *; try (split; [reflexivity | lia]).
  destruct (truthy v); [discriminate|]. simpl. split; [reflexivity|lia].
Qed.

Lemma dict_get_set_same (k : string) (v : jval) (d : job) :
  dict_get k (dict_set k v d) = Some v.
Proof.
  induction d as [|[k' v'] r IH]; simpl.
  - rewrite String.eqb_refl. reflexivity.
  - destruct (k =? k') eqn:E; simpl; rewrite ?E; [reflexivity|exact IH].
Qed.

Lemma dict_get_set_other (k k2 : string) (v : jval) (d : job) :
  k2 <> k -> dict_get k2 (dict_set k v d) = dict_get k2 d.
Proof.
  intros Hne. induction d as [|[k' v'] r IH]; simpl.
  - apply String.eqb_neq in Hne. rewrite Hne. reflexivity.
  - destruct (k =? k') eqn:E; simpl.
    + apply String.eqb_eq in E. subst k'.
      apply String.eqb_neq in Hne. rewrite Hne. reflexivity.
    + destruct (k2 =? k'); [reflexivity | exact IH].
Qed.


(** Every unit whose call returns a truthy value is appended to
    [accounts_created], whatever the value reports. *)
Lemma units_truthy_length (unit_of : nat -> unit_outcome) :
  (forall j, exists v, unit_of j = UReturns v /\ truthy v = true) ->
  forall n i, length (fst (units n i unit_of)) = n.
Proof.
  intros Hall. induction n as [|n IH]; intros i; [reflexivity|].
  cbn [units]. specialize (IH (S i)).
  destruct (units n (S i) unit_of) as [acc errs]. simpl in IH.
  destruct (Hall i) as [v [-> Hv]]. rewrite Hv.
  destruct v; simpl in Hv |- *; [discriminate | rewrite IH; reflexivity
                                 | rewrite IH; reflexivity].
Qed.

(** With an account creator, a job whose units all return truthy values
    takes the total-success branch. *)
Lemma truthy_units_complete (max_retries count : Z) (job_data : job)
    (unit_of : nat -> unit_outcome) :
  jtruthy (dict_get "id" job_data) = true ->
  job_count job_data = JInt count -> (0 <= count)%Z ->
  (forall j, exists v, unit_of j = UReturns v /\ truthy v = true) ->
  process_job max_retries true job_data unit_of =
    mkEff [(Running, None, None);
           (Completed, None,
            Some (mkJobResult (Z.to_nat count) (fst (units (Z.to_nat count) 0 unit_of)) None))]
          [] (Some true) 1 0.
Proof.
  intros Hid Hc Hpos Hall.
  pose proof (units_truthy_length unit_of Hall (Z.to_nat count) 0) as Hlen.
  unfold process_job. rewrite Hid. simpl negb. cbv iota.
  unfold job_count in Hc. rewrite Hc.
  destruct (units (Z.to_nat count) 0 unit_of) as [acc errs]. simpl in Hlen |- *.
  rewrite Hlen, Z2Nat.id by exact Hpos. rewrite Z.eqb_refl. reflexivity.
Qed.

(** A daemon that never set [account_creator] (the constructor leaves it
    [None] and nothing else assigns it) takes the [except Exception] path of
    [process_job]: the job is requeued with [retry_count + 1] or marked
    failed, by the same [retry_count < max_retries] test. *)
Lemma no_creator_path (max_retries rc : Z) (job_data : job)
    (unit_of : nat -> unit_outcome) :
  jtruthy (dict_get "id" job_data) = true -> job_retry job_data = JInt rc ->
  process_job max_retries false job_data unit_of =
    if (rc <? max_retries)%Z
    then mkEff [(Running, None, None); (Pending, None, None)]
               [dict_set "retry_count" (JInt (rc + 1)) job_data] (Some false) 0 0
    else mkEff [(Running, None, None);
                (Failed, Some (UnexpectedProcessing
                   ("KickAccountCreator.__init__() missing 2 required positional "
                    ++ "arguments: 'email_pool' and 'kasada_solver'")), None)]
               [] (Some false) 0 1.
Proof.
  intros Hid Hrc. unfold process_job. rewrite Hid. simpl.
  unfold job_retry in Hrc. rewrite Hrc. unfold outer_except. simpl.
  destruct (rc <? max_retries)%Z; reflexivity.
Qed.

End WorkerFacts.

Module WorkerClaims.
Import Worker WorkerFacts Demo.

(** A job (with an id, an int [retry_count] and an int [count >= 1])
    whose units all raise or return a falsy value ([None] or an empty
    dict), processed by a daemon with an account creator:
    if [retry_count < max_retries] the same payload with [retry_count + 1]
    (every other key unchanged) is pushed back on the queue and the status
    is set to pending; if [retry_count = max_retries] nothing is pushed and
    the status is set to failed with the [AllFailed] message that carries
    every unit's error. *)
Theorem all_units_fail_retry (max_retries rc count : Z) (job_data : job)
    (unit_of : nat -> unit_outcome) :
  jtruthy (dict_get "id" job_data) = true ->
  job_retry job_data = JInt rc -> job_count job_data = JInt count ->
  (0 < count)%Z ->
  (forall j, (j < Z.to_nat count)%nat -> unit_fails (unit_of j) = true) ->
  let e := process_job max_retries true job_data unit_of in
  ((rc < max_retries)%Z ->
     pushes e = [dict_set "retry_count" (JInt (rc + 1)) job_data] /\
     final_status e = Some Pending /\ returned e = Some false /\ failed e = 0%nat /\
     dict_get "retry_count" (dict_set "retry_count" (JInt (rc + 1)) job_data)
       = Some (JInt (rc + 1)) /\
     (forall k, k <> "retry_count" ->
        dict_get k (dict_set "retry_count" (JInt (rc + 1)) job_data) = dict_get k job_data)) /\
  (rc = max_retries ->
     pushes e = [] /\ final_status e = Some Failed /\ returned e = Some false /\
     failed e = 1%nat /\
     exists errs, length errs = Z.to_nat count /\
       last_update e = Some (Failed, Some (AllFailed max_retries errs), None)).
Proof.
  intros Hid Hrc Hc Hpos Hall.
  destruct (units_all_fail unit_of (Z.to_nat count) 0) as [Hacc Herr];
    [intros j Hj; apply Hall; lia|].
  unfold process_job. rewrite Hid. simpl negb. cbv iota.
  unfold job_retry in Hrc. unfold job_count in Hc. rewrite Hrc, Hc.
  destruct (units (Z.to_nat count) 0 unit_of) as [acc errs] eqn:U.
  simpl in Hacc, Herr. subst acc. simpl length.
  replace (Z.of_nat 0 =? count)%Z with false by (symmetry; apply Z.eqb_neq; lia).
  simpl. split.
  - intros Hlt. apply Z.ltb_lt in Hlt. rewrite Hlt. simpl.
    repeat split; [apply dict_get_set_same | intros k Hk; apply dict_get_set_other, Hk].
  - intros ->. rewrite Z.ltb_irrefl. simpl.
    repeat split. exists errs. split; [exact Herr | reflexivity].
Qed.


Lemma all_units_fail_retry_witness :
  jtruthy (dict_get "id" demo_job) = true /\
  job_retry demo_job = JInt 1 /\ job_count demo_job = JInt 2 /\ (0 < 2)%Z /\
  (forall j, (j < Z.to_nat 2)%nat -> unit_fails (demo_fail j) = true) /\
  (let e := process_job 3 true demo_job demo_fail in
  ((1 < 3)%Z ->
     pushes e = [dict_set "retry_count" (JInt (1 + 1)) demo_job] /\
     final_status e = Some Pending /\ returned e = Some false /\ failed e = 0%nat /\
     dict_get "retry_count" (dict_set "retry_count" (JInt (1 + 1)) demo_job)
       = Some (JInt (1 + 1)) /\
     (forall k, k <> "retry_count" ->
        dict_get k (dict_set "retry_count" (JInt (1 + 1)) demo_job) = dict_get k demo_job)) /\
  (1 = 3 ->
     pushes e = [] /\ final_status e = Some Failed /\ returned e = Some false /\
     failed e = 1%nat /\
     exists errs, length errs = Z.to_nat 2 /\
       last_update e = Some (Failed, Some (AllFailed 3 errs), None)))%Z.
Proof.
  assert (Hall : forall j, (j < Z.to_nat 2)%nat -> unit_fails (demo_fail j) = true).
  { intros j Hj. simpl in Hj. destruct j as [|[|j]]; [reflexivity|reflexivity|lia]. }
  refine (conj eq_refl (conj eq_refl (conj eq_refl (conj _ (conj Hall _))))); [lia|].
  apply (all_units_fail_retry 3 1 2 demo_job demo_fail);
    [reflexivity | reflexivity | reflexivity | lia | exact Hall].
Defined.

(** C6 (failing input): [create_account] reports a failed run by returning
    a non-empty dict with [success=False], and [run_in_executor] on the
    async [create_account] returns a coroutine object; both are truthy.  A
    job (with an id, an int [retry_count] below [max_retries] and an int
    [count >= 1]) whose units all fail in either of these ways is marked
    completed, counted as succeeded, and not pushed back on the queue:
    it is never retried. *)
Theorem C6_reported_failures_not_retried (max_retries rc count : Z) (job_data : job)
    (unit_of : nat -> unit_outcome) :
  jtruthy (dict_get "id" job_data) = true ->
  job_retry job_data = JInt rc -> (rc < max_retries)%Z ->
  job_count job_data = JInt count -> (1 <= count)%Z ->
  (forall j, unit_of j = UReturns PyCoroutine \/
             exists d, unit_of j = UReturns (PyDict d) /\ In ("success", "False") d) ->
  let e := process_job max_retries true job_data unit_of in
  final_status e = Some Completed /\ pushes e = [] /\ returned e = Some true /\
  succeeded e = 1%nat /\ failed e = 0%nat.
Proof.
  intros Hid Hrc Hlt Hc Hpos Hall.
  rewrite (truthy_units_complete max_retries count job_data unit_of Hid Hc
             ltac:(lia)).
  - repeat split.
  - intros j. destruct (Hall j) as [H | [d [H Hin]]]; rewrite H.
    + exists PyCoroutine. split; reflexivity.
    + exists (PyDict d). split; [reflexivity|].
      destruct d as [|x d]; [destruct Hin | reflexivity].
Qed.

Lemma C6_witness :
  jtruthy (dict_get "id" demo_job) = true /\
  job_retry demo_job = JInt 1 /\ (1 < 3)%Z /\
  job_count demo_job = JInt 2 /\ (1 <= 2)%Z /\
  (forall j, demo_reported_failure j = UReturns PyCoroutine \/
     exists d, demo_reported_failure j = UReturns (PyDict d) /\ In ("success", "False") d) /\
  (let e := process_job 3 true demo_job demo_reported_failure in
   final_status e = Some Completed /\ pushes e = [] /\ returned e = Some true /\
   succeeded e = 1%nat /\ failed e = 0%nat).
Proof.
  assert (Hall : forall j, demo_reported_failure j = UReturns PyCoroutine \/
     exists d, demo_reported_failure j = UReturns (PyDict d) /\ In ("success", "False") d).
  { intros j. right. exists demo_failure_dict. split; [reflexivity | left; reflexivity]. }
  refine (conj eq_refl (conj eq_refl (conj _ (conj eq_refl (conj _ (conj Hall _))))));
    [lia | lia |].
  apply (C6_reported_failures_not_retried 3 1 2 demo_job demo_reported_failure);
    [reflexivity | reflexivity | lia | reflexivity | lia | exact Hall].
Defined.

(** C7 (failing input): a unit counts as created when its call returns a
    truthy value, not when its pipeline result reports success.  A job
    (with an id and an int [count >= 0]) whose units all return non-empty
    dicts with [success=False] is classified as a total success: its last
    status update is completed with no error message, [accounts_created =
    count], every failure dict listed in [accounts] and no [errors]. *)
Theorem C7_failed_results_counted (max_retries count : Z) (job_data : job)
    (unit_of : nat -> unit_outcome) :
  jtruthy (dict_get "id" job_data) = true ->
  job_count job_data = JInt count -> (0 <= count)%Z ->
  (forall j, exists d, unit_of j = UReturns (PyDict d) /\ In ("success", "False") d) ->
  let e := process_job max_retries true job_data unit_of in
  exists accs,
    last_update e = Some (Completed, None, Some (mkJobResult (Z.to_nat count) accs None)) /\
    length accs = Z.to_nat count /\
    Forall (fun a => exists d, a = PyDict d /\ In ("success", "False") d) accs /\
    returned e = Some true.
Proof.
  intros Hid Hc Hpos Hall.
  assert (Htr : forall j, exists v, unit_of j = UReturns v /\ truthy v = true).
  { intros j. destruct (Hall j) as [d [H Hin]]. exists (PyDict d). split; [exact H|].
    destruct d as [|x d]; [destruct Hin | reflexivity]. }
  rewrite (truthy_units_complete max_retries count job_data unit_of Hid Hc Hpos Htr).
  exists (fst (units (Z.to_nat count) 0 unit_of)).
  split; [reflexivity|]. split; [apply units_truthy_length, Htr|].
  split; [|reflexivity].
  generalize 0%nat. induction (Z.to_nat count) as [|n IH]; intros i; [constructor|].
  cbn [units]. specialize (IH (S i)).
  destruct (units n (S i) unit_of) as [acc errs]. simpl in IH.
  destruct (Hall i) as [d [-> Hin]].
  destruct d as [|x d]; [destruct Hin|]. simpl.
  constructor; [exists (x :: d); split; [reflexivity | exact Hin] | exact IH].
Qed.

Lemma C7_witness :
  jtruthy (dict_get "id" demo_job) = true /\
  job_count demo_job = JInt 2 /\ (0 <= 2)%Z /\
  (forall j, exists d, demo_reported_failure j = UReturns (PyDict d) /\
                       In ("success", "False") d) /\
  (let e := process_job 3 true demo_job demo_reported_failure in
   exists accs,
    last_update e = Some (Completed, None, Some (mkJobResult (Z.to_nat 2) accs None)) /\
    length accs = Z.to_nat 2 /\
    Forall (fun a => exists d, a = PyDict d /\ In ("success", "False") d) accs /\
    returned e = Some true).
Proof.
  assert (Hall : forall j, exists d, demo_reported_failure j = UReturns (PyDict d) /\
                                     In ("success", "False") d).
  { intros j. exists demo_failure_dict. split; [reflexivity | left; reflexivity]. }
  refine (conj eq_refl (conj eq_refl (conj _ (conj Hall _)))); [lia|].
  apply (C7_failed_results_counted 3 2 demo_job demo_reported_failure);
    [reflexivity | reflexivity | lia | exact Hall].
Defined.




End WorkerClaims.

(* ================================================================== *)
(** * Further properties of the code *)

(** ** Credential pool *)

Module PoolMore.
Import Pool PoolFacts.

Lemma load_lines_terminal (lines : list string) (p : pool) :
  used_emails (fst (load_lines lines p)) = used_emails p /\
  failed_emails (fst (load_lines lines p)) = failed_emails p.
Proof.
  revert p. induction lines as [|raw rest IH]; intros p; simpl; [split; reflexivity|].
  destruct (parse_line raw) as [| | |e pw]; try apply IH; try (split; reflexivity).
  destruct (mem e (used_emails p) || mem e (failed_emails p)); [apply IH|].
  destruct (IH (mkPool (available_emails p ++ [(e, pw)]) (used_emails p)
                       (failed_emails p))) as [H1 H2].
  rewrite H1, H2. split; reflexivity.
Qed.

(** X1: an identifier once in [used] (resp. [failed]) stays there whatever
    the client calls afterwards, [reload] included. *)
Theorem terminal_sets_only_grow (p : pool) (ops : list op) (x : email) :
  (In x (used_emails p) -> In x (used_emails (run p ops))) /\
  (In x (failed_emails p) -> In x (failed_emails (run p ops))).
Proof.
  unfold run. revert p. induction ops as [|o ops IH]; intros p; simpl; [tauto|].
  destruct (IH (step p o)) as [IH1 IH2].
  split; intros H; [apply IH1 | apply IH2]; destruct o as [e|e| |f]; simpl;
    try (apply set_add_In; right); try exact H;
    unfold reload, load_emails; destruct f as [lines|]; simpl; try exact H;
    destruct (load_lines_terminal lines (mkPool [] (used_emails p) (failed_emails p)))
      as [Hu Hf]; rewrite ?Hu, ?Hf; exact H.
Qed.

(** How [load_lines] depends on the pool it starts from: the entries it
    reads and its error depend on the lines only; an entry is appended
    unless its identifier is terminal. *)
Lemma load_lines_shape (lines : list string) :
  exists (L : list (email * secret)) (err : option load_error),
  forall acc U F,
    load_lines lines (mkPool acc U F) =
      (mkPool (acc ++ filter (fun ep => negb (mem (fst ep) U || mem (fst ep) F)) L) U F,
       err).
Proof.
  induction lines as [|raw rest IH].
  - exists [], None. intros acc U F. simpl. rewrite app_nil_r. reflexivity.
  - destruct IH as [L [err IH]]. simpl.
    destruct (parse_line raw) as [| | |e pw].
    + exists L, err. exact IH.
    + exists [], (Some MalformedEmailFormat). intros acc U F. simpl.
      rewrite app_nil_r. reflexivity.
    + exists L, err. exact IH.
    + exists ((e, pw) :: L), err. intros acc U F. simpl.
      destruct (mem e U || mem e F); simpl; rewrite IH; [reflexivity|].
      rewrite <- app_assoc. reflexivity.
Qed.

Lemma filter_keep_nil (L : list (email * secret)) :
  filter (fun ep => negb (mem (fst ep) [] || mem (fst ep) [])) L = L.
Proof.
  induction L as [|x L IH]; [reflexivity|].
  change (x :: filter (fun ep => negb (mem (fst ep) [] || mem (fst ep) [])) L = x :: L).
  rewrite IH. reflexivity.
Qed.

(** X2: reloading a file that a fresh pool loads without error keeps the
    terminal sets and makes [available] exactly the entries a fresh pool
    would load, in file order, minus those whose identifier is terminal. *)
Theorem reload_is_filtered_fresh_load (lines : list string) (q p : pool) :
  init (Some lines) = Some q ->
  reload (Some lines) p =
    (mkPool (filter (fun ep => negb (mem (fst ep) (used_emails p)
                                     || mem (fst ep) (failed_emails p)))
                    (available_emails q))
            (used_emails p) (failed_emails p), None).
Proof.
  intros Hq. unfold init, load_emails, empty_pool in Hq.
  unfold reload, load_emails.
  destruct (load_lines_shape lines) as [L [err H]].
  rewrite H in Hq. rewrite H.
  destruct err; [discriminate|]. injection Hq as <-.
  cbn [available_emails used_emails failed_emails app]. rewrite filter_keep_nil.
  reflexivity.
Qed.

(** X3: a malformed line (no [':'] after stripping, not blank, not a
    comment) aborts loading: the lines after it are never read, the
    entries appended before it stay, and the constructor fails even when
    every other line is well formed. *)
Theorem malformed_line_aborts (pre suf : list string) (bad : string) (p : pool) :
  Forall (fun l => parse_line l <> LMalformed) pre ->
  parse_line bad = LMalformed ->
  load_lines (pre ++ bad :: suf) p = (fst (load_lines pre p), Some MalformedEmailFormat) /\
  init (Some (pre ++ bad :: suf)) = None.
Proof.
  intros Hpre Hbad.
  assert (H : forall p, load_lines (pre ++ bad :: suf) p =
                        (fst (load_lines pre p), Some MalformedEmailFormat)).
  { induction Hpre as [|l pre Hl Hpre IH]; intros q; simpl.
    - rewrite Hbad. reflexivity.
    - destruct (parse_line l) as [| | |e pw]; try apply IH; [contradiction|].
      destruct (mem e (used_emails q) || mem e (failed_emails q)); apply IH. }
  split; [apply H|]. unfold init, load_emails. rewrite H. reflexivity.
Qed.

(** X4: a missing file, or a file whose lines are all blank, comments or
    entries failing the ['@'] / ['.'] check, gives a pool with nothing in
    it: every count of [get_stats] is 0 and [get_next_email] raises
    [EmailPoolEmptyError]. *)
Theorem no_entries_empty_pool (f : option (list string)) :
  (f = None \/ exists lines, f = Some lines /\
     Forall (fun l => parse_line l = LSkip \/ parse_line l = LBadEmail) lines) ->
  exists q, init f = Some q /\ get_stats q = mkStats 0 0 0 0 /\
            get_next_email q = inr EmailPoolEmpty.
Proof.
  intros [->|[lines [-> Hl]]].
  - exists empty_pool. repeat split.
  - exists empty_pool. split; [|split; reflexivity].
    unfold init, load_emails.
    assert (H : load_lines lines empty_pool = (empty_pool, None)).
    { induction Hl as [|l lines [H|H] _ IH]; simpl; [reflexivity| |]; rewrite H; exact IH. }
    rewrite H. reflexivity.
Qed.

Lemma list_ascii_of_string_append (a b : string) :
  list_ascii_of_string (a ++ b) = list_ascii_of_string a ++ list_ascii_of_string b.
Proof. induction a as [|c a IH]; simpl; [reflexivity|]. rewrite IH. reflexivity. Qed.

Lemma lstrip_id (l : list ascii) :
  Forall (fun c => Str.is_space c = false) l -> Str.lstrip l = l.
Proof. intros H. destruct H as [|c l Hc _]; simpl; [reflexivity|]. rewrite Hc. reflexivity. Qed.

Lemma strip_id (s : string) :
  Forall (fun c => Str.is_space c = false) (list_ascii_of_string s) -> Str.strip s = s.
Proof.
  intros H. unfold Str.strip, Str.strip_l. rewrite (lstrip_id _ H).
  rewrite lstrip_id by (apply Forall_rev; exact H).
  rewrite rev_involutive. apply string_of_list_ascii_of_string.
Qed.

Lemma split_colon_l_first (a b : list ascii) :
  existsb (Str.ascii_eqb ":") a = false ->
  Str.split_colon_l (a ++ ":"%char :: b) = (a, b).
Proof.
  induction a as [|c a IH]; intros H; [reflexivity|].
  cbn [existsb] in H. apply orb_false_iff in H as [H1 H2].
  assert (E : Str.ascii_eqb c ":" = false).
  { unfold Str.ascii_eqb in *. rewrite Ascii.eqb_sym. exact H1. }
  cbn [app Str.split_colon_l]. rewrite E, IH by exact H2. reflexivity.
Qed.

(** The conditions under which a line [e:pw] of the pool file is read back
    as the entry [(e, pw)]. *)
Lemma parse_line_entry (e pw : string) :
  Forall (fun c => Str.is_space c = false) (list_ascii_of_string e) ->
  Forall (fun c => Str.is_space c = false) (list_ascii_of_string pw) ->
  Str.has_char ":" e = false -> Str.starts_hash e = false ->
  Str.has_char "@" e = true -> Str.has_char "." e = true ->
  parse_line (e ++ ":" ++ pw) = LEntry e pw.
Proof.
  intros He Hpw Hc Hh Ha Hd.
  assert (Hl : list_ascii_of_string (e ++ ":" ++ pw) =
               list_ascii_of_string e ++ ":"%char :: list_ascii_of_string pw).
  { rewrite !list_ascii_of_string_append. reflexivity. }
  assert (Hs : Str.strip (e ++ ":" ++ pw) = (e ++ ":" ++ pw)%string).
  { apply strip_id. rewrite Hl. apply Forall_app. split; [exact He|].
    constructor; [reflexivity | exact Hpw]. }
  destruct e as [|c0 e0]; [discriminate Ha|].
  unfold parse_line. rewrite Hs.
  replace ((String c0 e0 ++ ":" ++ pw) =? "") with false by reflexivity.
  replace (Str.starts_hash (String c0 e0 ++ ":" ++ pw)) with false by (symmetry; exact Hh).
  replace (Str.has_char ":" (String c0 e0 ++ ":" ++ pw)) with true.
  2:{ symmetry. unfold Str.has_char. rewrite Hl, existsb_app.
      apply orb_true_iff. right. reflexivity. }
  simpl negb. cbv iota.
  unfold Str.split_colon. rewrite Hl, split_colon_l_first by exact Hc.
  rewrite !string_of_list_ascii_of_string, !strip_id by assumption.
  rewrite Ha, Hd. reflexivity.
Qed.

(** X5: writing credentials as [e:pw] lines and constructing a pool from
    that file gives back exactly those entries, in file order, duplicates
    included, when each identifier contains ['@'] and ['.'], no [':'] and
    does not start with ['#'], and neither part contains whitespace (the
    secret may contain [':']). *)
Theorem init_format_roundtrip (entries : list (email * secret)) :
  Forall (fun '(e, pw) =>
      Forall (fun c => Str.is_space c = false) (list_ascii_of_string e) /\
      Forall (fun c => Str.is_space c = false) (list_ascii_of_string pw) /\
      Str.has_char ":" e = false /\ Str.starts_hash e = false /\
      Str.has_char "@" e = true /\ Str.has_char "." e = true) entries ->
  init (Some (map (fun '(e, pw) => (e ++ ":" ++ pw)%string) entries)) =
    Some (mkPool entries [] []).
Proof.
  intros H. unfold init, load_emails, empty_pool.
  assert (G : forall acc, load_lines (map (fun '(e, pw) => (e ++ ":" ++ pw)%string) entries)
                            (mkPool acc [] []) = (mkPool (acc ++ entries) [] [], None)).
  { induction H as [|[e pw] rest [H1 [H2 [H3 [H4 [H5 H6]]]]] _ IH]; intros acc; cbn [map load_lines].
    - rewrite app_nil_r. reflexivity.
    - rewrite parse_line_entry by assumption. cbn [mem existsb orb negb available_emails used_emails failed_emails]. rewrite IH, <- app_assoc.
      reflexivity. }
  rewrite G. reflexivity.
Qed.

Lemma remove_email_notin (e : email) (l : list (email * secret)) :
  ~ In e (ids l) -> remove_email e l = l.
Proof.
  induction l as [|[a b] l IH]; simpl; intros H; [reflexivity|].
  destruct (String.eqb a e) eqn:E.
  - apply String.eqb_eq in E. subst. exfalso. apply H. left. reflexivity.
  - simpl. f_equal. apply IH. intros Hin. apply H. right. exact Hin.
Qed.

Lemma remove_email_length (e : email) (l : list (email * secret)) :
  NoDup (ids l) -> (length l <= S (length (remove_email e l)))%nat.
Proof.
  induction l as [|[a b] l IH]; simpl; intros H; [lia|].
  inversion H as [|? ? Hnot Hnd]; subst.
  destruct (String.eqb a e) eqn:E; simpl.
  - apply String.eqb_eq in E. subst. rewrite (remove_email_notin e l Hnot). lia.
  - specialize (IH Hnd). lia.
Qed.

Lemma set_add_length (x : string) (s : list string) :
  length (set_add x s) = (length s + (if mem x s then 0 else 1))%nat.
Proof.
  unfold set_add. fold (mem x s). destruct (mem x s); simpl; [lia|].
  rewrite length_app. simpl. reflexivity.
Qed.

(** X6: on a pool satisfying [Inv] whose available entries carry distinct
    identifiers, [mark_as_used] and [mark_as_failed] never decrease the
    [total] of [get_stats]. *)
Theorem mark_total_nondecreasing (e : email) (p : pool) :
  Inv p -> NoDup (ids (available_emails p)) ->
  (st_total (get_stats p) <= st_total (get_stats (mark_as_used e p)))%nat /\
  (st_total (get_stats p) <= st_total (get_stats (mark_as_failed e p)))%nat.
Proof.
  intros [Ha _] Hnd. unfold get_stats, mark_as_used, mark_as_failed; simpl.
  rewrite !set_add_length.
  destruct (in_dec string_dec e (ids (available_emails p))) as [Hin|Hin].
  - destruct (Ha e Hin) as [Hu Hf].
    apply mem_false_notIn in Hu, Hf. rewrite Hu, Hf.
    pose proof (remove_email_length e _ Hnd). unfold email, secret in *. split; lia.
  - rewrite (remove_email_notin e _ Hin).
    destruct (mem e (used_emails p)), (mem e (failed_emails p)); unfold email, secret in *; split; lia.
Qed.

Lemma reload_is_filtered_fresh_load_witness :
  init (Some ["a@b.c:pw"; "d@e.f:pw2"])
    = Some (mkPool [("a@b.c", "pw"); ("d@e.f", "pw2")] [] []) /\
  reload (Some ["a@b.c:pw"; "d@e.f:pw2"]) (mkPool [] ["a@b.c"] [])
    = (mkPool (filter (fun ep => negb (mem (fst ep) ["a@b.c"] || mem (fst ep) []))
                      [("a@b.c", "pw"); ("d@e.f", "pw2")]) ["a@b.c"] [], None).
Proof.
  split; [vm_compute; reflexivity|].
  apply (reload_is_filtered_fresh_load ["a@b.c:pw"; "d@e.f:pw2"]
           (mkPool [("a@b.c", "pw"); ("d@e.f", "pw2")] [] []) (mkPool [] ["a@b.c"] [])).
  vm_compute. reflexivity.
Defined.

Lemma malformed_line_aborts_witness :
  Forall (fun l => parse_line l <> LMalformed) ["a@b.c:pw"] /\
  parse_line "no-colon-here" = LMalformed /\
  load_lines (["a@b.c:pw"] ++ "no-colon-here" :: ["d@e.f:pw2"]) empty_pool
    = (fst (load_lines ["a@b.c:pw"] empty_pool), Some MalformedEmailFormat) /\
  init (Some (["a@b.c:pw"] ++ "no-colon-here" :: ["d@e.f:pw2"])) = None.
Proof.
  assert (H1 : Forall (fun l => parse_line l <> LMalformed) ["a@b.c:pw"]).
  { constructor; [vm_compute; discriminate | constructor]. }
  assert (H2 : parse_line "no-colon-here" = LMalformed) by (vm_compute; reflexivity).
  split; [exact H1|]. split; [exact H2|].
  apply (malformed_line_aborts ["a@b.c:pw"] ["d@e.f:pw2"] "no-colon-here" empty_pool H1 H2).
Defined.

Lemma no_entries_empty_pool_witness :
  exists q, init (Some ["# header"; "   "; "nobody:pw"]) = Some q /\
    get_stats q = mkStats 0 0 0 0 /\ get_next_email q = inr EmailPoolEmpty.
Proof.
  apply (no_entries_empty_pool (Some ["# header"; "   "; "nobody:pw"])).
  right. exists ["# header"; "   "; "nobody:pw"]. split; [reflexivity|].
  repeat constructor; first [left; vm_compute; reflexivity | right; vm_compute; reflexivity].
Defined.

Lemma init_format_roundtrip_witness :
  init (Some (map (fun '(e, pw) => (e ++ ":" ++ pw)%string)
                  [("a@b.c", "p:w"); ("a@b.c", "x")]))
    = Some (mkPool [("a@b.c", "p:w"); ("a@b.c", "x")] [] []).
Proof.
  apply init_format_roundtrip.
  repeat constructor.
Defined.

Lemma mark_total_nondecreasing_witness :
  Inv (mkPool [("a@b.c", "pw"); ("d@e.f", "pw2")] [] ["x@y.z"]) /\
  NoDup (ids [("a@b.c", "pw"); ("d@e.f", "pw2")]) /\
  (st_total (get_stats (mkPool [("a@b.c", "pw"); ("d@e.f", "pw2")] [] ["x@y.z"]))
   <= st_total (get_stats (mark_as_used "a@b.c"
                             (mkPool [("a@b.c", "pw"); ("d@e.f", "pw2")] [] ["x@y.z"]))))%nat /\
  (st_total (get_stats (mkPool [("a@b.c", "pw"); ("d@e.f", "pw2")] [] ["x@y.z"]))
   <= st_total (get_stats (mark_as_failed "a@b.c"
                             (mkPool [("a@b.c", "pw"); ("d@e.f", "pw2")] [] ["x@y.z"]))))%nat.
Proof.
  assert (Hi : Inv (mkPool [("a@b.c", "pw"); ("d@e.f", "pw2")] [] ["x@y.z"])).
  { split; [|split; repeat constructor; simpl; tauto].
    intros x Hx. simpl in *. split; [tauto|].
    intros [<-|[]]. destruct Hx as [H|[H|[]]]; discriminate. }
  assert (Hn : NoDup (ids [("a@b.c", "pw"); ("d@e.f", "pw2")])).
  { simpl. constructor; [intros [H|[]]; discriminate|].
    constructor; [tauto | constructor]. }
  split; [exact Hi|]. split; [exact Hn|].
  exact (mark_total_nondecreasing "a@b.c" _ Hi Hn).
Defined.

End PoolMore.

(** ** Code extraction *)

Module ExtractMore.
Import Extract.

Lemma take_digits_spec (k : nat) (l : list ascii) :
  (length (take_digits k l) <= k)%nat /\
  Forall (fun c => is_digit c = true) (take_digits k l) /\
  exists t, l = take_digits k l ++ t.
Proof.
  revert l. induction k as [|k IH]; intros l; simpl.
  - split; [lia|]. split; [constructor|]. exists l. reflexivity.
  - destruct l as [|c r]; simpl.
    + split; [lia|]. split; [constructor|]. exists []. reflexivity.
    + destruct (is_digit c) eqn:Hc; simpl.
      * destruct (IH r) as [H1 [H2 [t Ht]]].
        split; [lia|]. split; [constructor; assumption|].
        exists t. rewrite Ht at 1. reflexivity.
      * split; [lia|]. split; [constructor|]. exists (c :: r). reflexivity.
Qed.

Lemma removelast_prefix (d : list ascii) : exists t, d = removelast d ++ t.
Proof.
  destruct d as [|c d]; [exists []; reflexivity|].
  exists [last (c :: d) c]. apply app_removelast_last. discriminate.
Qed.

Lemma try_lengths_prefix (fuel : nat) (d s r : list ascii) :
  try_lengths fuel d s = Some r -> (4 <= length r)%nat /\ exists t, d = r ++ t.
Proof.
  revert d. induction fuel as [|f IH]; intros d H; simpl in H; [discriminate|].
  destruct (length d <? 4)%nat eqn:Hlen; [discriminate|].
  apply Nat.ltb_ge in Hlen.
  destruct (boundary _ _).
  - injection H as <-. split; [exact Hlen|]. exists []. rewrite app_nil_r. reflexivity.
  - destruct (IH _ H) as [H4 [t Ht]]. split; [exact H4|].
    destruct (removelast_prefix d) as [t' Ht']. exists (t ++ t').
    rewrite Ht' at 1. rewrite Ht, app_assoc. reflexivity.
Qed.

Lemma digits_prefix (r t d : list ascii) :
  d = r ++ t -> Forall (fun c => is_digit c = true) d ->
  Forall (fun c => is_digit c = true) r.
Proof. intros -> H. apply Forall_app in H. apply H. Qed.

Lemma match_prefix_ci_suffix (lit s r : list ascii) :
  match_prefix_ci lit s = Some r -> exists pre, s = pre ++ r.
Proof.
  revert s. induction lit as [|a lit IH]; intros s H; simpl in H.
  - injection H as <-. exists []. reflexivity.
  - destruct s as [|c s]; [discriminate|].
    destruct (Ascii.eqb a (lower c)); [|discriminate].
    destruct (IH s H) as [pre ->]. exists (c :: pre). reflexivity.
Qed.

Lemma drop_while_suffix (f : ascii -> bool) (l : list ascii) :
  exists pre, l = pre ++ drop_while f l.
Proof.
  induction l as [|c l [pre IH]]; simpl; [exists []; reflexivity|].
  destruct (f c); [exists (c :: pre); rewrite IH at 1; reflexivity | exists []; reflexivity].
Qed.

(** What one anchored match returns: 4 to 8 digits occurring in the text. *)
Lemma match_at_spec (pat : pattern) (prev : option ascii) (s r : list ascii) :
  match_at pat prev s = Some r ->
  (4 <= length r <= 8)%nat /\ Forall (fun c => is_digit c = true) r /\
  exists pre suf, s = pre ++ r ++ suf.
Proof.
  destruct pat as [|lit]; cbn [match_at]; intros H.
  - unfold match_generic in H. destruct (boundary _ _); [|discriminate].
    destruct (try_lengths_prefix _ _ _ _ H) as [H4 [t Ht]].
    destruct (take_digits_spec 8 s) as [H8 [Hd [t' Ht']]].
    split; [rewrite Ht in H8; rewrite length_app in H8; lia|].
    split; [exact (digits_prefix _ _ _ Ht Hd)|].
    exists [], (t ++ t'). rewrite Ht' at 1. rewrite Ht, <- app_assoc. reflexivity.
  - unfold match_label in H.
    destruct (match_prefix_ci _ s) as [rest|] eqn:Hp; [|discriminate].
    destruct rest as [|c rest']; [discriminate|].
    destruct (is_sep c); [|discriminate].
    destruct (4 <=? length (take_digits 8 (drop_while is_sep (c :: rest'))))%nat eqn:H4;
      [|discriminate].
    assert (Hr : take_digits 8 (drop_while is_sep (c :: rest')) = r)
      by (injection H; intros E; exact E).
    subst r. apply Nat.leb_le in H4.
    destruct (take_digits_spec 8 (drop_while is_sep (c :: rest'))) as [H8 [Hd [t Ht]]].
    split; [lia|]. split; [exact Hd|].
    destruct (match_prefix_ci_suffix _ _ _ Hp) as [pre1 Hs].
    destruct (drop_while_suffix is_sep (c :: rest')) as [pre2 Hr].
    exists (pre1 ++ pre2), t. rewrite Hs, Hr at 1. rewrite Ht at 1.
    rewrite <- !app_assoc. reflexivity.
Qed.

Lemma search_from_spec (pat : pattern) (prev : option ascii) (s r : list ascii) :
  search_from pat prev s = Some r ->
  (4 <= length r <= 8)%nat /\ Forall (fun c => is_digit c = true) r /\
  exists pre suf, s = pre ++ r ++ suf.
Proof.
  revert prev. induction s as [|c s IH]; intros prev H; simpl in H.
  - destruct (match_at pat prev []) eqn:Hm; [|discriminate].
    injection H as <-. exact (match_at_spec _ _ _ _ Hm).
  - destruct (match_at pat prev (c :: s)) eqn:Hm.
    + injection H as <-. exact (match_at_spec _ _ _ _ Hm).
    + destruct (IH _ H) as [H1 [H2 [pre [suf ->]]]].
      split; [exact H1|]. split; [exact H2|]. exists (c :: pre), suf. reflexivity.
Qed.

(** X7: for a text of ASCII characters, a code returned by
    [_extract_code_from_text] is a run of 4 to 8 digits [0-9] that occurs
    contiguously in the text. *)
Theorem extracted_code_shape (text c : string) :
  extract_code_from_text text = Some c ->
  (4 <= length (list_ascii_of_string c) <= 8)%nat /\
  Forall (fun ch => is_digit ch = true) (list_ascii_of_string c) /\
  exists pre suf, list_ascii_of_string text = pre ++ list_ascii_of_string c ++ suf.
Proof.
  unfold extract_code_from_text. destruct (text =? "")%string; [discriminate|].
  generalize CODE_PATTERNS as pats.
  induction pats as [|pat pats IH]; simpl; [discriminate|].
  destruct (search pat text) as [c'|] eqn:Hs; [|exact IH].
  intros H. injection H as <-. unfold search in Hs.
  destruct (search_from pat None (list_ascii_of_string text)) as [r|] eqn:Hr; [|discriminate].
  injection Hs as <-. rewrite list_ascii_of_string_of_list_ascii.
  exact (search_from_spec _ _ _ _ Hr).
Qed.

Lemma extracted_code_shape_witness :
  extract_code_from_text "Your code: 482913" = Some "482913" /\
  (4 <= length (list_ascii_of_string "482913") <= 8)%nat /\
  Forall (fun ch => is_digit ch = true) (list_ascii_of_string "482913") /\
  exists pre suf, list_ascii_of_string "Your code: 482913"
                  = pre ++ list_ascii_of_string "482913" ++ suf.
Proof.
  assert (H : extract_code_from_text "Your code: 482913" = Some "482913")
    by (vm_compute; reflexivity).
  split; [exact H|]. exact (extracted_code_shape _ _ H).
Defined.

Lemma code_from_messages_skip (L rest : list (string * string)) :
  Forall (fun m' => code_from_messages [m'] = None) L ->
  code_from_messages (L ++ rest) = code_from_messages rest.
Proof.
  induction 1 as [|[s b] L Hx _ IH]; [reflexivity|].
  cbn [app code_from_messages] in *.
  destruct (extract_code_from_text s); [discriminate|].
  destruct (extract_code_from_text b); [discriminate|]. exact IH.
Qed.

(** X8: [_search_verification_email] returns the code of the most recent
    message that yields one: messages received after it that yield no code
    and all older messages do not matter. *)
Theorem newest_message_with_code_wins (older newer : list (string * string))
    (m : string * string) (c : string) :
  code_from_messages [m] = Some c ->
  Forall (fun m' => code_from_messages [m'] = None) newer ->
  search_messages (older ++ m :: newer) = Some c.
Proof.
  intros Hm Hn. unfold search_messages.
  rewrite rev_app_distr. cbn [rev]. rewrite <- app_assoc.
  rewrite code_from_messages_skip by (apply Forall_rev; exact Hn).
  destruct m as [s b]. cbn [app code_from_messages] in *.
  destruct (extract_code_from_text s); [exact Hm|].
  destruct (extract_code_from_text b); [exact Hm|discriminate].
Qed.

Lemma newest_message_with_code_wins_witness :
  code_from_messages [("Your code", "Code: 111222")] = Some "111222" /\
  Forall (fun m' => code_from_messages [m'] = None) [("Hello", "no digits here")] /\
  search_messages [("Old", "Code: 999888"); ("Your code", "Code: 111222");
                   ("Hello", "no digits here")] = Some "111222".
Proof.
  assert (H1 : code_from_messages [("Your code", "Code: 111222")] = Some "111222")
    by (vm_compute; reflexivity).
  assert (H2 : Forall (fun m' => code_from_messages [m'] = None) [("Hello", "no digits here")])
    by (constructor; [vm_compute; reflexivity | constructor]).
  split; [exact H1|]. split; [exact H2|].
  exact (newest_message_with_code_wins [("Old", "Code: 999888")] _ _ _ H1 H2).
Defined.

End ExtractMore.

(** ** Challenge client *)

Module SolverMore.
Import Solver.

Ltac case_resp :=
  repeat match goal with
  | |- context [make_api_request (?resp (S ?k))] =>
      let E := fresh "E" in destruct (make_api_request (resp (S k))) as [[]|[]] eqn:E;
      cbn [sr_requests sr_outcome sr_backoffs app]
  end.

(** X9: [solve] sends at most [MAX_RETRIES] = 3 requests, and sleeps
    [2 ** attempt] seconds between two of them: no sleep after a single
    request, 2 s, then 2 s and 4 s.  Test mode and an empty [fetch_url]
    send nothing; otherwise at least one request goes out. *)
Theorem solve_request_schedule (test_mode : bool) (fetch_url : string)
    (resp : nat -> api_resp) :
  (sr_requests (solve test_mode fetch_url resp) <= 3)%nat /\
  sr_backoffs (solve test_mode fetch_url resp)
    = firstn (sr_requests (solve test_mode fetch_url resp) - 1) [2; 4]%Z /\
  (sr_requests (solve test_mode fetch_url resp) = 0%nat <->
   test_mode = true \/ fetch_url = "").
Proof.
  unfold solve. destruct test_mode; [simpl; intuition|].
  destruct (fetch_url =? "")%string eqn:Hu.
  - apply String.eqb_eq in Hu. simpl. intuition.
  - apply String.eqb_neq in Hu.
    unfold MAX_RETRIES, attempts. case_resp; simpl;
      (split; [lia|]); (split; [reflexivity|]); split; intros H;
      try discriminate; destruct H as [H|H]; congruence.
Qed.

(** X10: once a request is sent, the outcome of [solve] is decided by the
    last request it sends: every earlier one timed out, hit a client error
    or raised a [KasadaSolverError] or another exception, and the last one
    is either the third or one that is not retried (success, 401, 403 or
    429).  A timeout on the last attempt gives [TimeoutError], any other
    retried error [KasadaSolverError]. *)
Theorem solve_last_request_decides (fetch_url : string) (resp : nat -> api_resp) :
  fetch_url <> "" ->
  let n := sr_requests (solve false fetch_url resp) in
  (1 <= n)%nat /\
  (forall j, (1 <= j < n)%nat ->
     match make_api_request (resp j) with
     | inr XTimeout | inr XClientError | inr XSolver | inr XOther => True
     | _ => False
     end) /\
  sr_outcome (solve false fetch_url resp) =
    match make_api_request (resp n) with
    | inl _ => Solved
    | inr XTimeout => ErrTimeout
    | inr XInvalidAPIKey => ErrInvalidAPIKey
    | inr XRateLimit => ErrRateLimit
    | inr _ => ErrSolver
    end /\
  (n = 3%nat \/
   match make_api_request (resp n) with
   | inl _ | inr XInvalidAPIKey | inr XRateLimit => True
   | _ => False
   end).
Proof.
  intros Hu. apply String.eqb_neq in Hu. unfold solve. rewrite Hu. cbn zeta.
  unfold MAX_RETRIES. cbn [attempts]. case_resp; try discriminate;
    repeat match goal with H : make_api_request _ = _ |- _ => rewrite H end;
    (split; [lia|]);
    (split; [intros j Hj;
             destruct j as [|[|[|j]]]; try lia;
             repeat match goal with H : make_api_request _ = _ |- _ => rewrite H end;
             exact I|]);
    (split; [reflexivity|]); tauto.
Qed.

Lemma solve_last_request_decides_witness :
  "https://kick.com/" <> "" /\
  sr_outcome (solve false "https://kick.com/"
                (fun k => if (k =? 1)%nat then RespTimeout else RespStatus 200 true))
    = Solved.
Proof.
  assert (H : "https://kick.com/" <> "") by discriminate.
  split; [exact H|].
  destruct (solve_last_request_decides "https://kick.com/"
              (fun k => if (k =? 1)%nat then RespTimeout else RespStatus 200 true) H)
    as [_ [_ [Ho _]]].
  rewrite Ho. vm_compute. reflexivity.
Defined.

End SolverMore.

(** ** Request helper of the account creator *)

Module HttpMore.
Import Http.

Lemma mr_loop_S (f attempt attempts : nat) (resp : nat -> http_resp) :
  mr_loop (S f) attempt attempts resp =
    let retry_or (final : mr_outcome) :=
      if (attempt <? attempts)%nat then
        let r := mr_loop f (S attempt) attempts resp in
        mkMR (mr_out r) (S (mr_requests r)) (S (mr_sleeps r))
      else mkMR final 1 0 in
    match resp attempt with
    | HStatus s =>
        if (s =? 200)%Z then mkMR (MRStatus s) 1 0
        else if (s <? 500)%Z then mkMR (MRStatus s) 1 0
        else retry_or (MRStatus s)
    | HTimeout => retry_or MRRaiseTimeout
    | HError => retry_or MRRaiseOther
    end.
Proof. reflexivity. Qed.

Lemma mr_loop_spec (resp : nat -> http_resp) (attempts : nat) :
  forall f attempt, (attempt + f = attempts)%nat -> (1 <= attempt)%nat ->
  let r := mr_loop (S f) attempt attempts resp in
  let last := (attempt + mr_requests r - 1)%nat in
  (1 <= mr_requests r <= S f)%nat /\ mr_sleeps r = (mr_requests r - 1)%nat /\
  (forall j, (attempt <= j < last)%nat -> retryable (resp j) = true) /\
  mr_out r = match resp last with
             | HStatus s => MRStatus s
             | HTimeout => MRRaiseTimeout
             | HError => MRRaiseOther
             end /\
  (retryable (resp last) = false \/ last = attempts).
Proof.
  induction f as [|f IH]; intros attempt Hf H1; cbn zeta.
  - assert (Hlt : (attempt <? attempts)%nat = false) by (apply Nat.ltb_ge; lia).
    unfold mr_loop. rewrite Hlt.
    destruct (resp attempt) as [s| |] eqn:Hr;
      [destruct (s =? 200)%Z eqn:H200; [|destruct (s <? 500)%Z eqn:H500]| |];
      cbn [mr_requests mr_sleeps mr_out];
      replace (attempt + 1 - 1)%nat with attempt by lia; rewrite Hr;
      (split; [lia|]); (split; [reflexivity|]);
      (split; [intros j Hj; lia|]); (split; [reflexivity|]); right; lia.
  - assert (Hlt : (attempt <? attempts)%nat = true) by (apply Nat.ltb_lt; lia).
    destruct (IH (S attempt) ltac:(lia) ltac:(lia)) as [Ha [Hb [Hc [Hd He]]]].
    cbn zeta in Ha, Hb, Hc, Hd, He.
    remember (mr_loop (S f) (S attempt) attempts resp) as r eqn:Er.
    rewrite mr_loop_S. cbn zeta. rewrite Hlt. rewrite <- Er.
    destruct (resp attempt) as [s| |] eqn:Hr.
    + destruct (s =? 200)%Z eqn:H200; [|destruct (s <? 500)%Z eqn:H500].
      * cbn [mr_requests mr_sleeps mr_out].
        replace (attempt + 1 - 1)%nat with attempt by lia. rewrite Hr.
        (split; [lia|]); (split; [reflexivity|]); (split; [intros j Hj; lia|]).
        split; [reflexivity|]. left. apply Z.eqb_eq in H200. subst. reflexivity.
      * cbn [mr_requests mr_sleeps mr_out].
        replace (attempt + 1 - 1)%nat with attempt by lia. rewrite Hr.
        (split; [lia|]); (split; [reflexivity|]); (split; [intros j Hj; lia|]).
        split; [reflexivity|]. left. simpl. apply Z.leb_gt. apply Z.ltb_lt in H500. exact H500.
      * cbn [mr_requests mr_sleeps mr_out].
        replace (attempt + S (mr_requests r) - 1)%nat
          with (S attempt + mr_requests r - 1)%nat by lia.
        split; [lia|]. split; [lia|].
        split; [|split; [exact Hd | exact He]].
        intros j Hj. destruct (Nat.eq_dec j attempt) as [->|Hne].
        -- rewrite Hr. simpl. apply Z.leb_le. apply Z.ltb_ge in H500. exact H500.
        -- apply Hc. lia.
    + cbn [mr_requests mr_sleeps mr_out].
      replace (attempt + S (mr_requests r) - 1)%nat
        with (S attempt + mr_requests r - 1)%nat by lia.
      split; [lia|]. split; [lia|].
      split; [|split; [exact Hd | exact He]].
      intros j Hj. destruct (Nat.eq_dec j attempt) as [->|Hne]; [rewrite Hr; reflexivity|].
      apply Hc. lia.
    + cbn [mr_requests mr_sleeps mr_out].
      replace (attempt + S (mr_requests r) - 1)%nat
        with (S attempt + mr_requests r - 1)%nat by lia.
      split; [lia|]. split; [lia|].
      split; [|split; [exact Hd | exact He]].
      intros j Hj. destruct (Nat.eq_dec j attempt) as [->|Hne]; [rewrite Hr; reflexivity|].
      apply Hc. lia.
Qed.

(** X11: [_make_request] sends between 1 and [RETRY_ATTEMPTS] = 3
    requests (exactly one with [retry=False]), sleeps [RETRY_DELAY] once
    between two of them, and never reaches its final
    [AccountCreationError("Max retry attempts reached")]. *)
Theorem make_request_bounds (retry : bool) (resp : nat -> http_resp) :
  (1 <= mr_requests (make_request retry resp) <= if retry then 3 else 1)%nat /\
  mr_sleeps (make_request retry resp) = (mr_requests (make_request retry resp) - 1)%nat /\
  mr_out (make_request retry resp) <> MRMaxRetries.
Proof.
  unfold make_request, RETRY_ATTEMPTS.
  destruct retry;
    [destruct (mr_loop_spec resp 3 2 1 eq_refl ltac:(lia)) as [Ha [Hb [_ [Hd _]]]]
    |destruct (mr_loop_spec resp 1 0 1 eq_refl ltac:(lia)) as [Ha [Hb [_ [Hd _]]]]];
    cbn zeta in *;
    (split; [exact Ha|]); (split; [exact Hb|]); rewrite Hd;
    destruct (resp _); discriminate.
Qed.

(** X12: a response with a status below 500 (200 included) is returned at
    once and never retried.  Only 5xx responses and exceptions are retried;
    on the last attempt a 5xx status is returned as is and an exception is
    re-raised. *)
Theorem make_request_outcome (retry : bool) (resp : nat -> http_resp) :
  let n := mr_requests (make_request retry resp) in
  (forall j, (1 <= j < n)%nat -> retryable (resp j) = true) /\
  mr_out (make_request retry resp) =
    match resp n with
    | HStatus s => MRStatus s
    | HTimeout => MRRaiseTimeout
    | HError => MRRaiseOther
    end /\
  (retryable (resp n) = false \/ n = (if retry then 3 else 1)%nat).
Proof.
  unfold make_request, RETRY_ATTEMPTS.
  destruct retry;
    [destruct (mr_loop_spec resp 3 2 1 eq_refl ltac:(lia)) as [_ [_ [Hc [Hd He]]]]
    |destruct (mr_loop_spec resp 1 0 1 eq_refl ltac:(lia)) as [_ [_ [Hc [Hd He]]]]];
    cbn zeta in *; rewrite Nat.add_comm, Nat.add_sub in Hc, Hd, He;
    (split; [intros j Hj; apply Hc; lia|]); (split; [exact Hd | exact He]).
Qed.

End HttpMore.

(** ** Generated account data *)

Module GenMore.
Import Gen.

Lemma length_string_of_list_ascii (l : list ascii) :
  String.length (string_of_list_ascii l) = length l.
Proof. induction l as [|c l IH]; simpl; [reflexivity|]. rewrite IH. reflexivity. Qed.

Lemma choices_length (pop : list ascii) (k : Z) (idx : nat -> nat) :
  length (choices pop k idx) = Z.to_nat k.
Proof. unfold choices. rewrite length_map, length_seq. reflexivity. Qed.

Lemma choices_in (pop : list ascii) (k : Z) (idx : nat -> nat) (P : ascii -> bool) :
  forallb P pop = true -> (forall j, idx j < length pop)%nat ->
  Forall (fun c => P c = true) (choices pop k idx).
Proof.
  intros HP Hi. unfold choices. apply Forall_forall. intros c Hc.
  apply in_map_iff in Hc as [j [<- _]].
  rewrite forallb_forall in HP. apply HP, nth_In, Hi.
Qed.

(** X13: with [random.choice] / [random.choices] drawing in range, the
    username has [max(1, length)] characters (a single letter when
    [length <= 1]), starts with an ASCII letter and contains only ASCII
    letters, digits and ['_']. *)
Theorem username_shape (length : Z) (first : nat) (idx : nat -> nat) :
  (first < 52)%nat -> (forall j, idx j < 63)%nat ->
  Z.of_nat (String.length (generate_random_username length first idx)) = Z.max 1 length /\
  (exists c rest, generate_random_username length first idx = String c rest /\
                  Extract.is_alpha c = true) /\
  Forall (fun c => Extract.is_word c = true)
         (list_ascii_of_string (generate_random_username length first idx)).
Proof.
  intros Hf Hi. unfold generate_random_username. cbn zeta.
  split; [|split].
  - cbn [String.length]. rewrite length_string_of_list_ascii, choices_length. lia.
  - eexists; eexists; split; [reflexivity|].
    assert (H : forallb Extract.is_alpha ascii_letters = true) by reflexivity.
    rewrite forallb_forall in H. apply H, nth_In. exact Hf.
  - cbn [list_ascii_of_string]. rewrite list_ascii_of_string_of_list_ascii.
    constructor.
    + assert (H : forallb Extract.is_word ascii_letters = true) by reflexivity.
      rewrite forallb_forall in H. apply H, nth_In. exact Hf.
    + apply choices_in; [reflexivity | exact Hi].
Qed.

Lemma username_shape_witness :
  (3 < 52)%nat /\ (forall j, (fun j => j mod 63) j < 63)%nat /\
  Z.of_nat (String.length (generate_random_username 10 3 (fun j => j mod 63))) = 10%Z.
Proof.
  assert (H1 : (3 < 52)%nat) by lia.
  assert (H2 : forall j, ((fun j => j mod 63) j < 63)%nat)
    by (intros j; apply Nat.mod_upper_bound; discriminate).
  split; [exact H1|]. split; [exact H2|].
  destruct (username_shape 10 3 (fun j => j mod 63) H1 H2) as [H _]. exact H.
Defined.

(** X14: with [random.choices] drawing in range, the password has
    [max(0, length)] characters, each an ASCII letter, a digit or one of
    [!@#$%^&*]; in particular it contains no whitespace and no [':']. *)
Theorem password_shape (length : Z) (idx : nat -> nat) :
  (forall j, idx j < 70)%nat ->
  Z.of_nat (String.length (generate_random_password length idx)) = Z.max 0 length /\
  Forall (fun c => In c password_chars)
         (list_ascii_of_string (generate_random_password length idx)) /\
  Forall (fun c => Str.is_space c = false /\ c <> ":"%char)
         (list_ascii_of_string (generate_random_password length idx)).
Proof.
  intros Hi. unfold generate_random_password.
  rewrite length_string_of_list_ascii, choices_length, list_ascii_of_string_of_list_ascii.
  split; [lia|].
  assert (Hin : Forall (fun c => In c password_chars) (choices password_chars length idx)).
  { unfold choices. apply Forall_forall. intros c Hc.
    apply in_map_iff in Hc as [j [<- _]]. apply nth_In, Hi. }
  split; [exact Hin|].
  assert (H : forallb (fun c => negb (Str.is_space c) && negb (Ascii.eqb c ":"))
                password_chars = true) by reflexivity.
  rewrite forallb_forall in H.
  eapply Forall_impl; [|exact Hin]. intros c Hc. specialize (H c Hc).
  apply andb_true_iff in H as [H1 H2]. apply negb_true_iff in H1, H2.
  split; [exact H1|]. intros ->. discriminate H2.
Qed.

Lemma password_shape_witness :
  (forall j, (fun j => j mod 70) j < 70)%nat /\
  Z.of_nat (String.length (generate_random_password 16 (fun j => j mod 70))) = 16%Z.
Proof.
  assert (H : forall j, ((fun j => j mod 70) j < 70)%nat)
    by (intros j; apply Nat.mod_upper_bound; discriminate).
  split; [exact H|].
  destruct (password_shape 16 (fun j => j mod 70) H) as [H1 _]. exact H1.
Defined.

End GenMore.

(** ** Rate limiting of the challenge client *)

Module RateLimitMore.
Import RateLimit.

(** X15: whatever the times of the calls, two successive requests of the
    challenge client (each preceded by [_enforce_rate_limit]) go out at
    least [RATE_LIMIT_DELAY] apart, and the first one at least that long
    after the initial [last_request_time], as long as [asyncio.sleep] never
    returns early. *)
Theorem requests_spaced (last : Z) (calls : list (Z * Z)) :
  Forall (fun c => (0 <= snd c)%Z) calls ->
  spaced last (request_times last calls).
Proof.
  intros H. revert last. induction H as [|[gap extra] calls Hx _ IH]; intros last;
    cbn [request_times spaced]; [exact I|].
  split; [|apply IH].
  simpl in Hx. unfold enforce_rate_limit. cbn zeta.
  destruct (last + gap - last <? RATE_LIMIT_DELAY)%Z eqn:E; cbn [fst snd].
  - unfold RATE_LIMIT_DELAY in *. lia.
  - apply Z.ltb_ge in E. unfold RATE_LIMIT_DELAY in *. lia.
Qed.

Lemma requests_spaced_witness :
  Forall (fun c => (0 <= snd c)%Z) [(200, 0); (5000, 3); (0, 1)]%Z /\
  spaced 0 (request_times 0 [(200, 0); (5000, 3); (0, 1)]%Z).
Proof.
  assert (H : Forall (fun c => (0 <= snd c)%Z) [(200, 0); (5000, 3); (0, 1)]%Z).
  { repeat constructor; simpl; lia. }
  split; [exact H|]. exact (requests_spaced 0 _ H).
Defined.

End RateLimitMore.

(** ** Account pipeline *)

Module PipelineMore.
Import Pool PoolFacts Pipeline PipelineFacts.

(** X16: on a pool with nothing available, [create_account] calls no
    collaborator, leaves the pool unchanged and returns the failure
    ["Email verification failed"] with the pool-empty message and no email. *)
Theorem empty_pool_failure (p : pool) (E : env) (u pw bd : option string) :
  available_emails p = [] ->
  create_account p E u pw bd =
    Returned p (mkResult false (Some "Email verification failed")
                  (Some "Email pool is empty - no available emails")
                  None None None None None None).
Proof.
  intros H. unfold create_account, try_block, get_next_email. rewrite H. reflexivity.
Qed.

Lemma empty_pool_failure_witness :
  available_emails empty_pool = [] /\
  create_account empty_pool (Demo.demo_env (SOk None)) None None None =
    Returned empty_pool (mkResult false (Some "Email verification failed")
                  (Some "Email pool is empty - no available emails")
                  None None None None None None).
Proof.
  split; [reflexivity|]. apply empty_pool_failure. reflexivity.
Defined.

(** X17: once [create_account] has taken a (non-empty) identifier from the
    pool, a returned result reports that identifier and leaves none of its
    entries available: it is in [used] or in [failed].  Only an escaping
    [BaseException] leaves the pool as it was. *)
Theorem taken_credential_leaves_available (p : pool) (E : env)
    (u pw bd : option string) (em : email) (sec : secret)
    (rest : list (email * secret)) :
  available_emails p = (em, sec) :: rest -> em <> "" ->
  match create_account p E u pw bd with
  | Returned p' r =>
      r_email r = Some em /\ ~ In em (ids (available_emails p')) /\
      (In em (used_emails p') \/ In em (failed_emails p'))
  | Raised p' _ _ => p' = p
  end.
Proof.
  intros Hav Hne.
  pose proof (try_block_spec p E u pw bd em sec rest Hav) as Hspec.
  unfold create_account.
  assert (Hu : In em (used_emails (mark_as_used em p)))
    by (apply set_add_In; left; reflexivity).
  assert (Hf : In em (failed_emails (mark_as_failed em p)))
    by (apply set_add_In; left; reflexivity).
  pose proof (ids_remove_self em (available_emails p)) as Hr.
  destruct (failure_at E) as [[st [c|]]|].
  - destruct st; cbn in Hspec; destruct Hspec as [m ->];
      destruct c; cbn [handle failure r_email final_pool];
      rewrite ?if_email_some by (exact Hne);
      first [ reflexivity
            | split; [reflexivity|]; split; [exact Hr|]; right; exact Hf ].
  - destruct st; cbn in Hspec; destruct Hspec as [m ->];
      cbn [handle failure r_email]; rewrite if_email_some by (exact Hne);
      (split; [reflexivity|]); (split; [exact Hr|]);
      first [ right; exact Hf | left; exact Hu ].
  - destruct Hspec as [r [-> [_ [_ [_ [Hem _]]]]]].
    split; [exact Hem|]. split; [exact Hr|]. left; exact Hu.
Qed.

Lemma taken_credential_leaves_available_witness :
  available_emails Demo.demo_pool = ("a@b.c", "pw") :: [("d@e.f", "pw2")] /\
  "a@b.c" <> "" /\
  match create_account Demo.demo_pool (Demo.demo_env (SOk None)) None None None with
  | Returned p' r =>
      r_email r = Some "a@b.c" /\ ~ In "a@b.c" (ids (available_emails p')) /\
      (In "a@b.c" (used_emails p') \/ In "a@b.c" (failed_emails p'))
  | Raised p' _ _ => p' = Demo.demo_pool
  end.
Proof.
  assert (H1 : available_emails Demo.demo_pool = ("a@b.c", "pw") :: [("d@e.f", "pw2")])
    by reflexivity.
  assert (H2 : "a@b.c" <> "") by discriminate.
  split; [exact H1|]. split; [exact H2|].
  exact (taken_credential_leaves_available Demo.demo_pool (Demo.demo_env (SOk None))
           None None None "a@b.c" "pw" [("d@e.f", "pw2")] H1 H2).
Defined.

End PipelineMore.

(** ** Worker daemon *)

Module WorkerMore.
Import Worker.

(** Every path through [process_job]: [fin] closes each final state. *)
Ltac process_job_cases job_data has_creator max_retries unit_of fin :=
  unfold process_job, outer_except, job_retry;
  destruct (jtruthy (dict_get "id" job_data)); cbn [negb]; [|fin];
  set (rc := match dict_get "retry_count" job_data with Some v => v | None => JInt 0 end);
  destruct has_creator; cbn [negb];
  [ destruct (match dict_get "count" job_data with Some v => v | None => JInt 1 end)
      as [|count|s];
    [ destruct (py_lt rc max_retries) as [[]|]; fin
    | destruct (units (Z.to_nat count) 0 unit_of) as [acc errs];
      destruct (Z.of_nat (length acc) =? count)%Z; [fin|];
      destruct (0 <? length acc)%nat; [fin|];
      destruct (py_lt rc max_retries) as [[]|]; fin
    | destruct (py_lt rc max_retries) as [[]|]; fin ]
  | destruct (py_lt rc max_retries) as [[]|]; fin ].

(** X18: [process_job] pushes the job back on the queue at most once, and
    does so exactly when the last status it sets is [pending]; the pushed
    payload is the job with [retry_count] (0 when absent) incremented, and
    the call then returns [False]. *)
Theorem requeue_iff_pending (max_retries : Z) (has_creator : bool) (job_data : job)
    (unit_of : nat -> unit_outcome) :
  let e := process_job max_retries has_creator job_data unit_of in
  (pushes e = [] /\ final_status e <> Some Pending) \/
  (pushes e = [dict_set "retry_count" (py_succ (job_retry job_data)) job_data] /\
   final_status e = Some Pending /\ returned e = Some false).
Proof.
  cbn zeta.
  process_job_cases job_data has_creator max_retries unit_of
    ltac:(cbn [pushes returned final_status updates map app last fst];
          first [ left; split; [reflexivity | discriminate]
                | right; split; [reflexivity | split; reflexivity] ]).
Qed.

(** X19: the return value and the daemon's counters agree with the last
    status set: [process_job] returns [True] and counts one success exactly
    when it ends [completed], counts one failure exactly when it ends
    [failed], and counts at most one of the two. *)
Theorem counters_follow_status (max_retries : Z) (has_creator : bool) (job_data : job)
    (unit_of : nat -> unit_outcome) :
  let e := process_job max_retries has_creator job_data unit_of in
  (returned e = Some true <-> final_status e = Some Completed) /\
  (succeeded e = 1%nat <-> final_status e = Some Completed) /\
  (failed e = 1%nat <-> final_status e = Some Failed) /\
  (succeeded e + failed e <= 1)%nat.
Proof.
  cbn zeta.
  process_job_cases job_data has_creator max_retries unit_of
    ltac:(cbn [pushes returned succeeded failed final_status updates map app last fst];
          repeat split; try lia; try discriminate; intros; try reflexivity;
          try discriminate).
Qed.

Lemma no_creator_path_witness :
  jtruthy (dict_get "id" Demo.demo_job) = true /\ job_retry Demo.demo_job = JInt 1 /\
  process_job 3 false Demo.demo_job Demo.demo_fail =
    mkEff [(Running, None, None); (Pending, None, None)]
          [dict_set "retry_count" (JInt 2) Demo.demo_job] (Some false) 0 0 /\
  process_job 1 false Demo.demo_job Demo.demo_fail =
    mkEff [(Running, None, None);
           (Failed, Some (UnexpectedProcessing
              "KickAccountCreator.__init__() missing 2 required positional arguments: 'email_pool' and 'kasada_solver'"),
            None)]
          [] (Some false) 0 1.
Proof.
  assert (H1 : jtruthy (dict_get "id" Demo.demo_job) = true) by reflexivity.
  assert (H2 : job_retry Demo.demo_job = JInt 1) by reflexivity.
  split; [exact H1|]. split; [exact H2|]. split.
  - rewrite (WorkerFacts.no_creator_path 3 1 Demo.demo_job Demo.demo_fail H1 H2).
    reflexivity.
  - rewrite (WorkerFacts.no_creator_path 1 1 Demo.demo_job Demo.demo_fail H1 H2).
    reflexivity.
Defined.

End WorkerMore.

(** ** Mailbox poller *)

Module PollerMore.
Import Poller.

Lemma poll_loop_trace (T p : Z) (polls : list poll) :
  forall now a,
  match fst (poll_loop T p now a polls) with
  | GotCode c _ =>
      exists pre pl rest, polls = pre ++ pl :: rest /\ no_code pre /\ poll_code pl = Some c
  | NoEmailReceived _ k =>
      exists pre rest, polls = pre ++ rest /\ no_code pre /\ k = (a + length pre + 1)%nat
  | _ => True
  end.
Proof.
  induction polls as [|pl polls IH]; intros now a; cbn [poll_loop].
  - destruct (now >? T)%Z; cbn [fst]; [|exact I].
    exists [], []. split; [reflexivity|]. split; [constructor|]. cbn. lia.
  - destruct (now >? T)%Z; cbn [fst].
    + exists [], (pl :: polls). split; [reflexivity|]. split; [constructor|]. cbn. lia.
    + destruct (poll_code pl) as [c|] eqn:Hc.
      * exists [], pl, polls. split; [reflexivity|]. split; [constructor | exact Hc].
      * assert (Hstep : forall now',
          match fst (poll_loop T p now' (S a) polls) with
          | GotCode c _ => exists pre pl' rest, pl :: polls = pre ++ pl' :: rest /\
                             no_code pre /\ poll_code pl' = Some c
          | NoEmailReceived _ k => exists pre rest, pl :: polls = pre ++ rest /\
                             no_code pre /\ k = (a + length pre + 1)%nat
          | _ => True
          end).
        { intros now'. specialize (IH now' (S a)).
          destruct (fst (poll_loop T p now' (S a) polls)); try exact I.
          - destruct IH as [pre [pl' [rest [-> [Hn Hc']]]]].
            exists (pl :: pre), pl', rest. split; [reflexivity|].
            split; [constructor; assumption | exact Hc'].
          - destruct IH as [pre [rest [-> [Hn ->]]]].
            exists (pl :: pre), rest. split; [reflexivity|].
            split; [constructor; assumption|]. cbn. lia. }
        destruct (Z.min p (T - now) >? 0)%Z.
        -- specialize (Hstep (now + poll_time pl + Z.min p (T - now))%Z).
           destruct (poll_loop T p (now + poll_time pl + Z.min p (T - now))%Z (S a) polls)
             as [o s]. exact Hstep.
        -- specialize (Hstep (now + poll_time pl)%Z).
           destruct (poll_loop T p (now + poll_time pl)%Z (S a) polls) as [o s].
           exact Hstep.
Qed.

(** X21: [get_verification_code] returns the code of the first search that
    found one, all earlier searches having found none.  When it raises
    [NoEmailReceivedError], all searches made found nothing and the
    [attempts] it reports is one more than the number of searches (the
    final deadline check counts as an attempt). *)
Theorem poller_first_code_and_attempts (T p : Z) (polls : list poll) :
  match fst (get_verification_code true T p polls) with
  | GotCode c _ =>
      exists pre pl rest, polls = pre ++ pl :: rest /\ no_code pre /\ poll_code pl = Some c
  | NoEmailReceived _ k =>
      exists pre rest, polls = pre ++ rest /\ no_code pre /\ k = S (length pre)
  | _ => True
  end.
Proof.
  unfold get_verification_code.
  pose proof (poll_loop_trace T p polls 0 0) as H.
  destruct (fst (poll_loop T p 0 0 polls)); try exact H.
  destruct H as [pre [rest [H1 [H2 H3]]]]. exists pre, rest.
  split; [exact H1|]. split; [exact H2|]. lia.
Qed.

End PollerMore.
